(** * Voice identification: the result classifier and the cached pattern store

    A shallow embedding of [televoice_identification.py]:
    - the [Result] class with its derived properties [filename],
      [matched_golden_ptn], [mrd] and [result_type];
    - [read_golden_ptns], the loader of the pickled golden patterns with its
      retry loop;
    - [televoice_identify], the pipeline around the pattern comparison.

    Conventions of the embedding.
    - Python [str] is [string]; the file names met here are ASCII.
    - A [dict] is an association list in insertion order with distinct keys
      ([dict_wf]); iteration order is list order.
    - Difference indices are modelled as exact integers ([Z]); rounding and
      not-a-number values of Python floats are outside the model.
    - Exceptions are values of [exn]; a computation that may raise returns
      [res]; code that touches the file system, the console or the clock runs
      in the monad [M] over [world], whose [None] stands for a loop that is
      still running when the fuel is spent. *)

From Stdlib Require Import ZArith String Ascii Strings.Byte List Bool Lia.
From stdpp Require Import gmap strings list.

Local Open Scope string_scope.
Local Open Scope Z_scope.
Local Open Scope list_scope.

(** ** Exceptions and results *)

Inductive exn : Type :=
| ValueError (msg : string)
| TypeError (msg : string)
| IndexError (msg : string)
| EOFError
| UnpicklingError (msg : string)
| FileNotFoundError
| PermissionError
| IsADirectoryError
| NotADirectoryError
| SystemExit (code : Z).

(** [except OSError] (of which [IOError] is an alias) catches these. *)
Definition is_OSError (e : exn) : bool :=
  match e with
  | FileNotFoundError | PermissionError | IsADirectoryError | NotADirectoryError => true
  | _ => false
  end.

Inductive res (A : Type) : Type :=
| Ok (a : A)
| Raise (e : exn).
Arguments Ok {A} a.
Arguments Raise {A} e.

#[global] Instance res_ret : MRet res := fun _ a => Ok a.
#[global] Instance res_bind : MBind res := fun _ _ k r =>
  match r with
  | Ok a => k a
  | Raise e => Raise e
  end.

(** ** Python built-ins used by the classifier *)

Module Py.

(** [a < b] on what [dict.get] may return: [None] or a number. *)
Definition lt (a b : option Z) : res bool :=
  match a, b with
  | Some x, Some y => Ok (x <? y)
  | _, _ => Raise (TypeError "'<' not supported between instances")
  end.

Definition gt (a b : option Z) : res bool :=
  match a, b with
  | Some x, Some y => Ok (x >? y)
  | _, _ => Raise (TypeError "'>' not supported between instances")
  end.

(** The scan of [min] and [max]: the first item starts as the best one and
    a later item replaces it only when it compares strictly better. *)
Fixpoint scan {A} (better : option Z -> option Z -> res bool)
    (key : A -> option Z) (best : A) (xs : list A) : res A :=
  match xs with
  | [] => Ok best
  | x :: xs' =>
      match better (key x) (key best) with
      | Ok true => scan better key x xs'
      | Ok false => scan better key best xs'
      | Raise e => Raise e
      end
  end.

(** [min(xs, key=key)] *)
Definition min {A} (key : A -> option Z) (xs : list A) : res A :=
  match xs with
  | [] => Raise (ValueError "min() arg is an empty sequence")
  | x :: xs' => scan lt key x xs'
  end.

(** [max(xs, key=key)] *)
Definition max {A} (key : A -> option Z) (xs : list A) : res A :=
  match xs with
  | [] => Raise (ValueError "max() arg is an empty sequence")
  | x :: xs' => scan gt key x xs'
  end.

(** [s[:n]] *)
Definition slice_to (n : nat) (s : string) : string := substring 0 n s.

(** [s[i:]] *)
Definition slice_from (i : nat) (s : string) : string :=
  substring i (String.length s - i) s.

Definition upper_ascii (c : ascii) : ascii :=
  let n := nat_of_ascii c in
  if ((97 <=? n)%nat && (n <=? 122)%nat)%bool then ascii_of_nat (n - 32) else c.

(** [s.upper()] on ASCII text *)
Fixpoint upper (s : string) : string :=
  match s with
  | EmptyString => EmptyString
  | String c s' => String (upper_ascii c) (upper s')
  end.

(** [str(b)] for a bool *)
Definition str_bool (b : bool) : string := if b then "True" else "False".

(** [s.rfind("/")], -1 when there is none *)
Fixpoint rfind_slash (s : string) : Z :=
  match s with
  | EmptyString => -1
  | String c s' =>
      let i := rfind_slash s' in
      if 0 <=? i then i + 1
      else if Ascii.eqb c "/" then 0 else -1
  end.

(** [s.rstrip("/")] *)
Fixpoint rstrip_slash (s : string) : string :=
  match s with
  | EmptyString => EmptyString
  | String c s' =>
      match rstrip_slash s' with
      | EmptyString => if Ascii.eqb c "/" then EmptyString else String c EmptyString
      | t => String c t
      end
  end.

(** [s.endswith("/")] and [s.startswith("/")] *)
Fixpoint endswith_slash (s : string) : bool :=
  match s with
  | EmptyString => false
  | String c EmptyString => Ascii.eqb c "/"
  | String _ s' => endswith_slash s'
  end.

Definition startswith_slash (s : string) : bool :=
  match s with
  | String c _ => Ascii.eqb c "/"
  | EmptyString => false
  end.

End Py.

(** ** [os.path] (the POSIX flavour) *)

(** [basename(p)]: [i = p.rfind('/') + 1; return p[i:]] *)
Definition basename (p : string) : string :=
  let i := Py.rfind_slash p + 1 in
  Py.slice_from (Z.to_nat i) p.

(** [dirname(p)]: the head before the last slash, without its trailing
    slashes unless it consists of slashes only. *)
Definition dirname (p : string) : string :=
  let i := Py.rfind_slash p + 1 in
  let head := Py.slice_to (Z.to_nat i) p in
  match Py.rstrip_slash head with
  | EmptyString => head
  | stripped => stripped
  end.

(** [join(a, b)] *)
Definition join (a b : string) : string :=
  if Py.startswith_slash b then b
  else if (String.eqb a "" || Py.endswith_slash a)%bool then a +:+ b
  else a +:+ "/" +:+ b.

(** ** Dictionaries in insertion order *)

Definition dict (V : Type) : Type := list (string * V).

Definition keys {V} (d : dict V) : list string := d.*1.
Definition values {V} (d : dict V) : list V := d.*2.

(** [d.get(k)] *)
Fixpoint dict_get {V} (d : dict V) (k : string) : option V :=
  match d with
  | [] => None
  | (k', v) :: d' => if String.eqb k k' then Some v else dict_get d' k
  end.

(** [d[k] = v]: an existing key keeps its place, a new one goes last. *)
Fixpoint dict_set {V} (d : dict V) (k : string) (v : V) : dict V :=
  match d with
  | [] => [(k, v)]
  | (k', v') :: d' =>
      if String.eqb k k' then (k', v) :: d' else (k', v') :: dict_set d' k v
  end.

(** The invariant of a Python dict: no key occurs twice. *)
Definition dict_wf {V} (d : dict V) : Prop := NoDup (keys d).

(** ** The class [Result] *)

Record Result : Type := mkResult {
  filepath : string;
  diff_indice : dict Z;
  exe_time : Z
}.

Definition filename (r : Result) : string := basename (filepath r).

Definition matched_golden_ptn (r : Result) : res (string * Z) :=
  k ← Py.min (dict_get (diff_indice r)) (keys (diff_indice r));
  v ← Py.min Some (values (diff_indice r));
  mret (k, v).

Definition mrd (r : Result) : res Z :=
  hi ← Py.max Some (values (diff_indice r));
  lo ← Py.min Some (values (diff_indice r));
  mret (hi - lo).

(** The last line of [result_type]:
    [str(self.filename[:2] == self.matched_golden_ptn[0][:2]).upper()] *)
Definition prefix_verdict (r : Result) : res string :=
  g ← matched_golden_ptn r;
  mret (Py.upper (Py.str_bool
          (String.eqb (Py.slice_to 2 (filename r)) (Py.slice_to 2 (fst g))))).

Definition result_type (r : Result) : res string :=
  m ← mrd r;
  if m <? 2000 then
    g ← matched_golden_ptn r;
    if snd g >? 2000 then mret "TYPICAL" else prefix_verdict r
  else prefix_verdict r.

(** The score maps of the classification examples. *)
Definition scores_A_decisive : dict Z := [("A", 500); ("B", 7000); ("C", 8000)].
Definition scores_close : dict Z := [("A", 3000); ("B", 3500); ("C", 3100)].

(** Two references share the least score. *)
Definition scores_tied : dict Z := [("B", 700); ("C", 500); ("A", 500)].

(** ** The world outside the interpreter *)

(** A path names a regular file, with its bytes, or a directory; [access]
    tells whether this process may open the file, or list the directory and
    add names to it or take names out of it. A directory can always be
    searched: the files in a directory without access can still be opened. *)
Inductive node : Type :=
| File (access : bool) (data : list byte)
| Dir (access : bool).

Record world : Type := mkWorld {
  files : gmap string node;
  stdout : list string;
  clock : Z
}.

Definition set_files (fs : gmap string node) (w : world) : world :=
  mkWorld fs (stdout w) (clock w).

(** [print(line)] *)
Definition put_line (line : string) (w : world) : world :=
  mkWorld (files w) (stdout w ++ [line]) (clock w).

(** The collaborators of the module: the libraries it imports, the programs
    on the search path and the other processes working on the same disk. *)
Class Externals : Type := {
  Signal : Type;
  Fingerprint : Type;
  (** [scipy.io.wavfile.read] on the bytes of an opened file *)
  wav_decode : list byte -> res (Z * Signal);
  (** [python_speech_features.mfcc(sig, rate, appendEnergy=...)] *)
  mfcc : Signal -> Z -> bool -> res Fingerprint;
  (** [ptns_cmp.ptns_cmp(golden_ptns, target, threshold, scan_step, multiproc)] *)
  ptns_cmp : dict Fingerprint -> Fingerprint -> option Z -> Z -> bool -> res (dict Z);
  (** [pickle.dump] and [pickle.load]; reading a pickle from an empty stream
      raises [EOFError]. *)
  pickle_dumps : dict Fingerprint -> list byte;
  pickle_loads : list byte -> res (dict Fingerprint);
  pickle_loads_empty : pickle_loads [] = Raise EOFError;
  (** the program found for a command name, run on the whole argument list *)
  which : string -> option (list string -> world -> world);
  (** what the other processes do between two attempts of the retry loop;
      the identity when this process is alone *)
  others : world -> world
}.

(** ** The monad of effectful code

    A computation maps the world to a result (a value or a raised exception)
    and the world after it, or to [None] when it is still running. *)
Definition M (A : Type) : Type := world -> option (res A * world).

#[global] Instance M_ret : MRet M := fun _ a w => Some (Ok a, w).
#[global] Instance M_bind : MBind M := fun _ _ k m w =>
  match m w with
  | Some (Ok a, w') => k a w'
  | Some (Raise e, w') => Some (Raise e, w')
  | None => None
  end.

Definition raise {A} (e : exn) : M A := fun w => Some (Raise e, w).
Definition lift {A} (r : res A) : M A := fun w => Some (r, w).
Definition spin {A} : M A := fun _ => None.

(** [try: body / except ...: handler]: the handler of the first matching
    clause runs in the world the body left; an exception no clause matches,
    and any exception a handler raises, goes on to the caller. *)
Definition try_except {A} (body : M A) (handler : exn -> option (M A)) : M A :=
  fun w =>
    match body w with
    | Some (Raise e, w') =>
        match handler e with
        | Some h => h w'
        | None => Some (Raise e, w')
        end
    | r => r
    end.

(** A computation that leaves the world as it found it. *)
Definition reads_only {A} (m : M A) : Prop := forall w, exists r, m w = Some (r, w).

Definition print (line : string) : M unit := fun w => Some (Ok tt, put_line line w).

(** [time.time()] *)
Definition time_time : M Z := fun w => Some (Ok (clock w), w).

(** [sys.exit(code)] *)
Definition sys_exit {A} (code : Z) : M A := raise (SystemExit code).

(** Whether the way to [p] leads through a regular file: its directory, the
    directory of that one, and so on up to the working directory. *)
Fixpoint under_a_file (n : nat) (fs : gmap string node) (p : string) : bool :=
  match n with
  | O => false
  | S n' =>
      let d := dirname p in
      if (String.eqb d "" || String.eqb d p)%bool then false
      else
        match fs !! d with
        | Some (File _ _) => true
        | _ => under_a_file n' fs d
        end
  end.

(** The error of reaching for a path that is not on the disk:
    NotADirectoryError when the way to it leads through a regular file,
    FileNotFoundError otherwise. *)
Definition absent_error (fs : gmap string node) (p : string) : exn :=
  if under_a_file (String.length p) fs p then NotADirectoryError else FileNotFoundError.

(** [open(p, 'rb')] followed by reading the whole stream *)
Definition open_rb (p : string) : M (list byte) := fun w =>
  match files w !! p with
  | None => Some (Raise (absent_error (files w) p), w)
  | Some (Dir _) => Some (Raise IsADirectoryError, w)
  | Some (File false _) => Some (Raise PermissionError, w)
  | Some (File true data) => Some (Ok data, w)
  end.

(** Why the directory of [p] refuses to take a new name or to give one up,
    if it does: it is missing, it is a regular file, or access is denied. *)
Definition parent_refuses (fs : gmap string node) (p : string) : option exn :=
  let parent := dirname p in
  if String.eqb parent "" then None
  else
    match fs !! parent with
    | None => Some (absent_error fs parent)
    | Some (File _ _) => Some NotADirectoryError
    | Some (Dir false) => Some PermissionError
    | Some (Dir true) => None
    end.

(** [open(p, 'wb')], writing [data] and closing *)
Definition open_wb (p : string) (data : list byte) : M unit := fun w =>
  match files w !! p with
  | Some (Dir _) => Some (Raise IsADirectoryError, w)
  | Some (File false _) => Some (Raise PermissionError, w)
  | Some (File true _) => Some (Ok tt, set_files (<[p := File true data]> (files w)) w)
  | None =>
      match parent_refuses (files w) p with
      | Some e => Some (Raise e, w)
      | None => Some (Ok tt, set_files (<[p := File true data]> (files w)) w)
      end
  end.

(** The names [os.listdir(p)] returns for a directory [p]: the last
    components of the paths directly below it. *)
Definition entries (fs : gmap string node) (p : string) : list string :=
  omap (fun k => let n := basename k in
                 if (negb (String.eqb n "") && String.eqb (join p n) k)%bool
                 then Some n else None)
       (map_to_list fs).*1.

(** [os.listdir(p)] *)
Definition os_listdir (p : string) : M (list string) := fun w =>
  match files w !! p with
  | None => Some (Raise (absent_error (files w) p), w)
  | Some (File _ _) => Some (Raise NotADirectoryError, w)
  | Some (Dir false) => Some (Raise PermissionError, w)
  | Some (Dir true) => Some (Ok (entries (files w) p), w)
  end.

(** [os.path.isfile(p)] *)
Definition isfile (p : string) : M bool := fun w =>
  Some (Ok (match files w !! p with Some (File _ _) => true | _ => false end), w).

(** [os.remove(p)] *)
Definition os_remove (p : string) : M unit := fun w =>
  match files w !! p with
  | None => Some (Raise (absent_error (files w) p), w)
  | Some (Dir _) => Some (Raise IsADirectoryError, w)
  | Some (File _ _) =>
      match parent_refuses (files w) p with
      | Some e => Some (Raise e, w)
      | None => Some (Ok tt, set_files (delete p (files w)) w)
      end
  end.

Section Pipeline.

Context `{E : Externals}.

(** [subprocess.run(argv)]: the exit status of the program is not looked
    at; a program that is not found raises [FileNotFoundError]. *)
Definition subprocess_run (argv : list string) : M unit :=
  match argv with
  | [] => raise (IndexError "list index out of range")
  | prog :: _ =>
      match which prog with
      | None => raise FileNotFoundError
      | Some run => fun w => Some (Ok tt, run argv w)
      end
  end.

(** [scipy.io.wavfile.read(p)] *)
Definition wav_read (p : string) : M (Z * Signal) :=
  data ← open_rb p;
  lift (wav_decode data).

(** [pickle.load(pfile)] on the bytes of the opened file *)
Definition pickle_load (pfile : list byte) : M (dict Fingerprint) :=
  lift (pickle_loads pfile).

(** ** [read_golden_ptns] *)

Definition pickle_path : string := join "temp" "golden_ptns.pickle".

Definition warning_empty : string :=
  "[Warning] Try to load golden_ptns.pickle but is empty, automatically retrying..".

Definition warning_unpickling (err : string) : string :=
  "[Warning] Try to load golden_ptns.pickle but " +:+ err +:+ "Automatically retrying..".

(** The [for path in paths] loop over the generator
    [(join(folderpath, f) for f in os.listdir(folderpath)
      if isfile(join(folderpath, f)))]. *)
Fixpoint extract_all (folderpath : string) (names : list string)
    (golden_ptns : dict Fingerprint) : M (dict Fingerprint) :=
  match names with
  | [] => mret golden_ptns
  | f :: names' =>
      keep ← isfile (join folderpath f);
      if keep : bool then
        let path := join folderpath f in
        rs ← wav_read path;
        ptn ← lift (mfcc (snd rs) (fst rs) false);
        extract_all folderpath names' (dict_set golden_ptns (basename path) ptn)
      else extract_all folderpath names' golden_ptns
  end.

(** The handler of [FileNotFoundError]: build the patterns from the wave
    files and save the pickle. *)
Definition build_golden_ptns (folderpath : string) : M (dict Fingerprint) :=
  names ← os_listdir folderpath;
  golden_ptns ← extract_all folderpath names [];
  _ ← open_wb pickle_path (pickle_dumps golden_ptns);
  mret golden_ptns.

(** How one pass through the body of [while True] ends: with a [return]
    from the [try] block, with a [return] from the handler that builds the
    patterns, or with [continue]. *)
Inductive pass : Type :=
| Loaded (golden_ptns : dict Fingerprint)
| Built (golden_ptns : dict Fingerprint)
| Continue.

Definition attempt (folderpath : string) : M pass :=
  try_except
    (pfile ← open_rb pickle_path;
     golden_ptns ← pickle_load pfile;
     mret (Loaded golden_ptns))
    (fun e =>
       match e with
       | FileNotFoundError =>
           Some (golden_ptns ← build_golden_ptns folderpath;
                 mret (Built golden_ptns))
       | EOFError =>
           Some (_ ← print warning_empty; mret Continue)
       | UnpicklingError err =>
           Some (_ ← print (warning_unpickling err); mret Continue)
       | _ => None
       end).

(** Between two passes the other processes get their turn. *)
Definition yield : M unit := fun w => Some (Ok tt, others w).

Fixpoint read_golden_ptns (fuel : nat) (folderpath : string) : M (dict Fingerprint) :=
  match fuel with
  | O => spin
  | S fuel' =>
      p ← attempt folderpath;
      match p with
      | Loaded golden_ptns => mret golden_ptns
      | Built golden_ptns => mret golden_ptns
      | Continue => _ ← yield; read_golden_ptns fuel' folderpath
      end
  end.

(** The world in which the next pass starts after a pass that found the
    pickle empty. *)
Definition after_warning (w : world) : world := others (put_line warning_empty w).

(** ** [televoice_identify] *)

Definition ffmpeg_argv (filepath tmp_filepath : string) : list string :=
  ["ffmpeg"; "-y"; "-hide_banner"; "-loglevel"; "panic"; "-i"; filepath;
   "-af"; "pan=mono|c0=c0"; "-ar"; "8000"; "-sample_fmt"; "s16"; "-f"; "wav";
   tmp_filepath].

Definition ffmpeg_required : string :=
  "[Error] Require ffmpeg to convert the audio in sepcific format.".

Definition tmp_path (filepath : string) : string :=
  join "temp" (basename filepath +:+ ".tmp").

Definition televoice_identify (fuel : nat) (filepath : string)
    (threshold : option Z) (scan_step : Z) (multiproc : bool) : M Result :=
  start_time ← time_time;
  golden_ptns ← read_golden_ptns fuel "golden_wav";
  let tmp_filepath := tmp_path filepath in
  _ ← try_except
        (subprocess_run (ffmpeg_argv filepath tmp_filepath))
        (fun e =>
           match e with
           | FileNotFoundError =>
               Some (_ ← print ffmpeg_required; sys_exit 2)
           | _ => None
           end);
  rs ← wav_read tmp_filepath;
  target_mfcc ← lift (mfcc (snd rs) (fst rs) false);
  scores ← lift (ptns_cmp golden_ptns target_mfcc threshold scan_step multiproc);
  now ← time_time;
  let result := mkResult filepath scores (now - start_time) in
  _ ← try_except
        (os_remove tmp_filepath)
        (fun e => if is_OSError e then Some (mret tt) else None);
  mret result.

End Pipeline.

(** ** A bench instance of the collaborators

    Small stand-ins on which the model runs: wave files are a one-byte
    header followed by one sample per byte, the features of a signal are its
    samples, the difference index is a sum of distances, and a pickle is a
    protocol byte, the number of entries and the length-prefixed entries. *)

Module Bench.

Definition sample (b : byte) : Z := Z.of_N (Byte.to_N b).

Definition byte_of_nat (n : nat) : byte := default x00 (Byte.of_nat n).

Definition decode (data : list byte) : res (Z * list Z) :=
  match data with
  | x52 :: body => Ok (8000, map sample body)
  | _ => Raise (ValueError "File format not understood.")
  end.

Definition features (sig : list Z) (rate : Z) (appendEnergy : bool) : res (list Z) :=
  Ok sig.

Fixpoint distance (a b : list Z) : Z :=
  match a, b with
  | x :: a', y :: b' => 100 * Z.abs (x - y) + distance a' b'
  | [], rest => 100 * Z.of_nat (length rest)
  | rest, [] => 100 * Z.of_nat (length rest)
  end.

(** The comparison rejects a scan step that is not positive. *)
Definition compare (golden_ptns : dict (list Z)) (target : list Z)
    (threshold : option Z) (scan_step : Z) (multiproc : bool) : res (dict Z) :=
  if scan_step <=? 0 then Raise (ValueError "range() arg 3 must not be zero")
  else Ok (map (fun kv => (fst kv, distance (snd kv) target)) golden_ptns).

Fixpoint dump_entries (d : dict (list Z)) : list byte :=
  match d with
  | [] => []
  | (k, v) :: d' =>
      byte_of_nat (String.length k) :: list_byte_of_string k
      ++ byte_of_nat (length v) :: map (fun z => byte_of_nat (Z.to_nat z)) v
      ++ dump_entries d'
  end.

Definition dumps (d : dict (list Z)) : list byte :=
  x80 :: byte_of_nat (length d) :: dump_entries d.

Definition truncated {A} : res A := Raise (UnpicklingError "pickle data was truncated. ").

Fixpoint load_entries (n : nat) (bs : list byte) : res (dict (list Z)) :=
  match n with
  | O =>
      match bs with
      | [] => Ok []
      | _ => Raise (UnpicklingError "unread bytes after the last entry. ")
      end
  | S n' =>
      match bs with
      | [] => truncated
      | lk :: bs1 =>
          let nk := Byte.to_nat lk in
          match drop nk bs1 with
          | [] => truncated
          | lv :: bs2 =>
              let nv := Byte.to_nat lv in
              if (length bs2 <? nv)%nat then truncated
              else
                rest ← load_entries n' (drop nv bs2);
                mret ((string_of_list_byte (take nk bs1), map sample (take nv bs2)) :: rest)
          end
      end
  end.

(** Unpickling: nothing to read is an EOFError, an integer opcode (I)
    followed by something that is no number a ValueError, and every other
    malformed input an UnpicklingError. *)
Definition loads (bs : list byte) : res (dict (list Z)) :=
  match bs with
  | [] => Raise EOFError
  | x49 :: _ => Raise (ValueError "could not convert string to int")
  | x80 :: [] => truncated
  | x80 :: n :: body => load_entries (Byte.to_nat n) body
  | _ => Raise (UnpicklingError "invalid load key. ")
  end.

(** The converter: the bytes of the input (argument 6) behind a wave header,
    at the output path (argument 15), when the input can be read and the
    output can be written. *)
Definition transcode (argv : list string) (w : world) : world :=
  match argv !! 6%nat, argv !! 15%nat with
  | Some src, Some dst =>
      match open_rb src w with
      | Some (Ok data, _) =>
          match open_wb dst (x52 :: data) w with
          | Some (Ok _, w') => w'
          | _ => w
          end
      | _ => w
      end
  | _, _ => w
  end.

Definition with_ffmpeg (prog : string) : option (list string -> world -> world) :=
  if String.eqb prog "ffmpeg" then Some transcode else None.


Definition externals (tools : string -> option (list string -> world -> world))
    (rivals : world -> world) : Externals :=
  {| Signal := list Z;
     Fingerprint := list Z;
     wav_decode := decode;
     mfcc := features;
     ptns_cmp := compare;
     pickle_dumps := dumps;
     pickle_loads := loads;
     pickle_loads_empty := eq_refl;
     which := tools;
     others := rivals |}.

(** This process alone, with and without the converter installed. *)
Definition alone : Externals := externals with_ffmpeg id.

Definition golden : dict (list Z) := [("A1.wav", [10; 20; 30]); ("B2.wav", [200; 100; 50])].

(** Another process that finishes writing the pickle once this one has
    printed its second warning. *)
Definition writer (w : world) : world :=
  if (2 <=? length (stdout w))%nat
  then set_files (<[pickle_path := File true (dumps golden)]> (files w)) w
  else w.

Definition racing : Externals := externals with_ffmpeg writer.

Definition disk (fs : list (string * node)) : world :=
  mkWorld (list_to_map fs) [] 0.

(** Two reference recordings and a target, no pickle yet. *)
Definition fresh : world :=
  disk [("temp", Dir true); ("golden_wav", Dir true);
        ("golden_wav/A1.wav", File true [x52; x0a; x14; x1e]);
        ("golden_wav/B2.wav", File true [x52; xc8; x64; x32]);
        ("A_sample.wav", File true [x0a; x14; x1f])].

(** The same with the pickle in place. *)
Definition cached : world :=
  disk [("temp", Dir true); ("golden_wav", Dir true);
        ("temp/golden_ptns.pickle", File true (dumps golden));
        ("A_sample.wav", File true [x0a; x14; x1f])].

(** The pickle was created but nothing has been written into it. *)
Definition empty_blob : world :=
  disk [("temp", Dir true); ("golden_wav", Dir true);
        ("temp/golden_ptns.pickle", File true [])].

(** A pickle cut short in the middle of its first entry. *)
Definition torn_blob : world :=
  disk [("temp", Dir true); ("golden_wav", Dir true);
        ("temp/golden_ptns.pickle", File true (take 5 (dumps golden)))].

(** The pickle and a temporary file of an earlier call are in place, but
    the temporary directory takes no new names and gives none up. *)
Definition sealed : world :=
  disk [("temp", Dir false); ("golden_wav", Dir true);
        ("temp/golden_ptns.pickle", File true (dumps golden));
        ("temp/A_sample.wav.tmp", File true [x52]);
        ("A_sample.wav", File true [x0a; x14; x1f])].

(** A readable reference directory without any file in it. *)
Definition no_refs : world :=
  disk [("temp", Dir true); ("golden_wav", Dir true)].

(** Neither a reference directory nor a pickle. *)
Definition no_dir : world :=
  disk [("temp", Dir true); ("A_sample.wav", File true [x0a; x14; x1f])].

(** A pickle overwritten with text: an integer opcode followed by letters. *)
Definition garbled_blob : world :=
  disk [("temp", Dir true); ("golden_wav", Dir true);
        ("temp/golden_ptns.pickle", File true [x49; x61; x62; x63; x0a; x2e])].

(** A regular file sits where the temporary directory should be. *)
Definition temp_is_a_file : world :=
  disk [("temp", File true []); ("golden_wav", Dir true)].

(** The pickle is there but this process may not open it. *)
Definition locked_blob : world :=
  disk [("temp", Dir true); ("golden_wav", Dir true);
        ("temp/golden_ptns.pickle", File false (dumps golden))].

(** One of the reference files is not a wave file; a subdirectory sits
    beside the recordings. *)
Definition bad_ref : world :=
  disk [("temp", Dir true); ("golden_wav", Dir true);
        ("golden_wav/A1.wav", File true [x52; x0a; x14; x1e]);
        ("golden_wav/notes.txt", File true [x68; x69]);
        ("golden_wav/old", Dir true)].

(** Two recordings and a subdirectory, which the listing names as well. *)
Definition with_subdir : world :=
  disk [("temp", Dir true); ("golden_wav", Dir true);
        ("golden_wav/A1.wav", File true [x52; x0a; x14; x1e]);
        ("golden_wav/B2.wav", File true [x52; xc8; x64; x32]);
        ("golden_wav/old", Dir true);
        ("golden_wav/old/C3.wav", File true [x52; x01])].

End Bench.

(** ** Vocabulary of the statements *)

(** A string without any slash: a single path component. *)
Definition slashless (s : string) : Prop := Py.rfind_slash s = -1.

(** The test of [os.path.isfile] on a disk. *)
Definition is_regular (fs : gmap string node) (p : string) : bool :=
  match fs !! p with Some (File _ _) => true | _ => false end.

(** What makes [v] the pattern of the reference file [k] of the directory:
    the file is read, decoded and turned into features without an error. *)
Definition pattern_of `{E : Externals} (folderpath : string) (w : world)
    (k : string) (v : Fingerprint) : Prop :=
  exists data rs,
    files w !! join folderpath k = Some (File true data) /\
    wav_decode data = Ok rs /\ mfcc (snd rs) (fst rs) false = Ok v.

(** The exceptions for which the [try] of [read_golden_ptns] has a clause. *)
Definition has_clause (e : exn) : bool :=
  match e with
  | FileNotFoundError | EOFError | UnpicklingError _ => true
  | _ => false
  end.

(** * Properties *)

(** ** The scan of [min] and [max] *)

Section Scan.

Context {A : Type} (key : A -> option Z) (kz : A -> Z).

(** Both scans at once: [sgn] is 1 for [min] and -1 for [max]. *)
Lemma scan_first (better : option Z -> option Z -> res bool) (sgn : Z) xs best :
  (forall x y, better (Some x) (Some y) = Ok (sgn * x <? sgn * y)) ->
  Forall (fun x => key x = Some (kz x)) (best :: xs) ->
  exists b l1 l2,
    Py.scan better key best xs = Ok b /\ best :: xs = l1 ++ b :: l2 /\
    Forall (fun x => sgn * kz b < sgn * kz x) l1 /\
    Forall (fun x => sgn * kz b <= sgn * kz x) l2.
Proof.
  intros Hb. revert best.
  induction xs as [|x xs IH]; intros best Hk.
  - exists best, [], []. simpl. repeat split; constructor.
  - pose proof (Forall_inv Hk) as Hbest.
    pose proof (Forall_inv (Forall_inv_tail Hk)) as Hx.
    simpl. rewrite Hx, Hbest, Hb.
    destruct (Z.ltb_spec (sgn * kz x) (sgn * kz best)) as [Hlt|Hge].
    + destruct (IH x (Forall_inv_tail Hk)) as (b & l1 & l2 & Hs & Hd & H1 & H2).
      exists b, (best :: l1), l2. rewrite Hs, Hd. repeat split; [|done].
      constructor; [|done].
      destruct l1 as [|y l1]; injection Hd as <- Hd'; [lia|].
      apply Forall_inv in H1. cbv beta in *. lia.
    + assert (Hk' : Forall (fun x => key x = Some (kz x)) (best :: xs)).
      { constructor; [done|]. exact (Forall_inv_tail (Forall_inv_tail Hk)). }
      destruct (IH best Hk') as (b & l1 & l2 & Hs & Hd & H1 & H2).
      rewrite Hs. destruct l1 as [|y l1]; injection Hd as -> ->.
      * exists b, [], (x :: l2). repeat split; [constructor|].
        constructor; [lia|done].
      * exists b, (y :: x :: l1), l2.
        pose proof (Forall_inv H1). pose proof (Forall_inv_tail H1).
        repeat split; [|done].
        cbv beta in *.
        apply Forall_cons; split; [lia|]. apply Forall_cons; split; [lia|done].
Qed.

Lemma min_first xs :
  xs <> [] ->
  Forall (fun x => key x = Some (kz x)) xs ->
  exists b l1 l2,
    Py.min key xs = Ok b /\ xs = l1 ++ b :: l2 /\
    Forall (fun x => kz b < kz x) l1 /\ Forall (fun x => kz b <= kz x) l2.
Proof.
  destruct xs as [|x xs]; [done|]. intros _ Hk.
  destruct (scan_first Py.lt 1 xs x) as (b & l1 & l2 & Hs & Hd & H1 & H2); [|done|].
  { intros a c. simpl. f_equal. destruct (Z.ltb_spec a c), (Z.ltb_spec (1 * a) (1 * c)); lia. }
  exists b, l1, l2. repeat split; [done|done| |].
  - eapply Forall_impl; [exact H1|]. simpl. intros; lia.
  - eapply Forall_impl; [exact H2|]. simpl. intros; lia.
Qed.

Lemma max_first xs :
  xs <> [] ->
  Forall (fun x => key x = Some (kz x)) xs ->
  exists b l1 l2,
    Py.max key xs = Ok b /\ xs = l1 ++ b :: l2 /\
    Forall (fun x => kz x < kz b) l1 /\ Forall (fun x => kz x <= kz b) l2.
Proof.
  destruct xs as [|x xs]; [done|]. intros _ Hk.
  destruct (scan_first Py.gt (-1) xs x) as (b & l1 & l2 & Hs & Hd & H1 & H2); [|done|].
  { intros a c. simpl. f_equal. unfold Z.gtb.
    destruct (Z.ltb_spec (-1 * a) (-1 * c)), (Z.compare_spec a c); lia. }
  exists b, l1, l2. repeat split; [done|done| |].
  - eapply Forall_impl; [exact H1|]. simpl. intros; lia.
  - eapply Forall_impl; [exact H2|]. simpl. intros; lia.
Qed.

End Scan.

(** The best item bounds every item of the list. *)
Lemma split_bound {A} (kz : A -> Z) (b : A) (l1 l2 : list A) (R : Z -> Z -> Prop) :
  (forall z, R z z) ->
  Forall (fun x => R (kz b) (kz x)) l1 -> Forall (fun x => R (kz b) (kz x)) l2 ->
  Forall (fun x => R (kz b) (kz x)) (l1 ++ b :: l2).
Proof.
  intros HR H1 H2. apply Forall_app. split; [done|]. constructor; [apply HR|done].
Qed.

(** ** Dictionaries *)

Lemma dict_get_elem {V} (d : dict V) k v : dict_get d k = Some v -> (k, v) ∈ d.
Proof.
  induction d as [|[k' v'] d IH]; simpl; [done|].
  destruct (String.eqb_spec k k') as [->|Hne]; intros Hg.
  - injection Hg as ->. apply list_elem_of_here.
  - apply list_elem_of_further, IH, Hg.
Qed.

Lemma dict_get_key {V} (d : dict V) k : k ∈ keys d -> is_Some (dict_get d k).
Proof.
  induction d as [|[k' v'] d IH]; simpl; intros Hin.
  - by apply elem_of_nil in Hin.
  - destruct (String.eqb_spec k k') as [->|Hne]; [by eexists|].
    apply IH. apply elem_of_cons in Hin as [Heq|Hin]; [done|exact Hin].
Qed.

Lemma dict_get_wf {V} (d : dict V) k v : dict_wf d -> (k, v) ∈ d -> dict_get d k = Some v.
Proof.
  unfold dict_wf, keys.
  induction d as [|[k' v'] d IH]; simpl; intros Hnd Hin.
  - by apply elem_of_nil in Hin.
  - apply NoDup_cons in Hnd as [Hk' Hnd].
    apply elem_of_cons in Hin as [Heq|Hin].
    + injection Heq as -> ->. by rewrite String.eqb_refl.
    + destruct (String.eqb_spec k k') as [->|Hne]; [|by apply IH].
      exfalso. apply Hk'. apply list_elem_of_fmap. exists (k', v). by split.
Qed.

Lemma elem_keys {V} (d : dict V) k v : (k, v) ∈ d -> k ∈ keys d.
Proof. intros Hin. apply list_elem_of_fmap. exists (k, v). by split. Qed.

Lemma elem_values {V} (d : dict V) k v : (k, v) ∈ d -> v ∈ values d.
Proof. intros Hin. apply list_elem_of_fmap. exists (k, v). by split. Qed.

(** On the keys of [d] the key function [d.get] never answers [None]. *)
Lemma dict_get_total {V} (d : dict V) (dflt : V) :
  Forall (fun k => dict_get d k = Some (default dflt (dict_get d k))) (keys d).
Proof.
  apply Forall_forall. intros k Hin.
  destruct (dict_get_key d k Hin) as [v ->]. done.
Qed.

Lemma values_total (vs : list Z) : Forall (fun v => Some v = Some (id v)) vs.
Proof. apply Forall_forall. done. Qed.

(** ** [matched_golden_ptn] and [mrd] *)

Lemma values_min (d : dict Z) :
  d <> [] ->
  exists lo, Py.min Some (values d) = Ok lo /\ lo ∈ values d /\
             Forall (fun v => lo <= v) (values d).
Proof.
  intros Hne.
  destruct (min_first Some id (values d)) as (lo & l1 & l2 & Hm & Hd & H1 & H2).
  { unfold values. by destruct d. }
  { apply values_total. }
  exists lo. split; [done|]. rewrite Hd. split.
  - apply elem_of_app. right. apply list_elem_of_here.
  - apply (split_bound id lo l1 l2 Z.le); [lia| |done].
    eapply Forall_impl; [exact H1|]. unfold id. intros; lia.
Qed.

Lemma values_max (d : dict Z) :
  d <> [] ->
  exists hi, Py.max Some (values d) = Ok hi /\ hi ∈ values d /\
             Forall (fun v => v <= hi) (values d).
Proof.
  intros Hne.
  destruct (max_first Some id (values d)) as (hi & l1 & l2 & Hm & Hd & H1 & H2).
  { unfold values. by destruct d. }
  { apply values_total. }
  exists hi. split; [done|]. rewrite Hd. split.
  - apply elem_of_app. right. apply list_elem_of_here.
  - apply (split_bound id hi l1 l2 (fun a b => b <= a)); [lia| |done].
    eapply Forall_impl; [exact H1|]. unfold id. intros; lia.
Qed.

Lemma mrd_spec (r : Result) :
  diff_indice r <> [] ->
  exists hi lo, mrd r = Ok (hi - lo) /\ lo <= hi /\
                Py.min Some (values (diff_indice r)) = Ok lo.
Proof.
  intros Hne.
  destruct (values_max _ Hne) as (hi & Hhi & _ & Hle).
  destruct (values_min _ Hne) as (lo & Hlo & Hin & _).
  exists hi, lo. unfold mrd. rewrite Hhi, Hlo. simpl.
  split; [done|]. split; [|done].
  rewrite Forall_forall in Hle. by apply Hle.
Qed.

(** Without any assumption on the keys: the key is found and the score is
    the least value. *)
Lemma matched_ok (r : Result) :
  diff_indice r <> [] ->
  exists k s, matched_golden_ptn r = Ok (k, s) /\ k ∈ keys (diff_indice r) /\
              Py.min Some (values (diff_indice r)) = Ok s.
Proof.
  intros Hne.
  destruct (min_first (dict_get (diff_indice r))
              (fun k => default 0 (dict_get (diff_indice r) k)) (keys (diff_indice r)))
    as (k & l1 & l2 & Hk & Hd & _).
  { unfold keys. by destruct (diff_indice r). }
  { apply dict_get_total. }
  destruct (values_min _ Hne) as (s & Hs & _).
  exists k, s. unfold matched_golden_ptn. rewrite Hk, Hs. simpl.
  split; [done|]. split; [|done].
  rewrite Hd. apply elem_of_app. right. apply list_elem_of_here.
Qed.

(** With distinct keys: the key [min] picks belongs to the first entry of the
    dictionary that carries the least score. *)
Lemma argmin_first (d : dict Z) :
  dict_wf d -> d <> [] ->
  exists k s l1 l2,
    Py.min (dict_get d) (keys d) = Ok k /\ Py.min Some (values d) = Ok s /\
    d = l1 ++ (k, s) :: l2 /\
    Forall (fun kv => s < snd kv) l1 /\ Forall (fun kv => s <= snd kv) l2.
Proof.
  intros Hwf Hne.
  set (kz := fun k => default 0 (dict_get d k)).
  assert (Hkz : forall k v, (k, v) ∈ d -> kz k = v).
  { intros k v Hin. unfold kz. by rewrite (dict_get_wf d k v Hwf Hin). }
  destruct (min_first (dict_get d) kz (keys d)) as (k & kl1 & kl2 & Hk & Hd & H1 & H2).
  { unfold keys. by destruct d. }
  { apply dict_get_total. }
  destruct (values_min d Hne) as (s & Hs & Hin & Hle).
  rewrite Forall_forall in H1. rewrite Forall_forall in H2.
  rewrite Forall_forall in Hle.
  unfold keys in Hd.
  apply fmap_app_inv in Hd as (d1 & d2 & Hd1 & Hd2 & Hd).
  symmetry in Hd2. apply fmap_cons_inv in Hd2 as ([k' s'] & d2' & Hk' & Hkl2 & Hd2).
  simpl in Hk'. subst k' d2 kl1 kl2.
  assert (Hmid : (k, s') ∈ d).
  { rewrite Hd. apply elem_of_app. right. apply list_elem_of_here. }
  assert (Hks : kz k = s') by (by apply Hkz).
  assert (Hss : s = s').
  { apply Z.le_antisymm.
    - apply Hle. by apply (elem_values d k).
    - unfold values in Hin. apply list_elem_of_fmap in Hin as ([k0 s0] & -> & Hin0).
      simpl. rewrite <- Hks, <- (Hkz k0 s0 Hin0).
      rewrite Hd in Hin0. apply elem_of_app in Hin0 as [Hin0|Hin0].
      + apply Z.lt_le_incl, H1. by apply (elem_keys d1 k0 s0).
      + apply elem_of_cons in Hin0 as [Heq|Hin0]; [injection Heq as -> ->; lia|].
        apply H2. by apply (elem_keys d2' k0 s0). }
  rewrite <- Hss in Hd, Hks. exists k, s, d1, d2'.
  split; [done|]. split; [done|]. split; [done|]. split.
  - apply Forall_forall. intros [k0 s0] Hin0. simpl.
    rewrite <- Hks, <- (Hkz k0 s0).
    + apply H1. by apply (elem_keys d1 k0 s0).
    + rewrite Hd. apply elem_of_app. by left.
  - apply Forall_forall. intros [k0 s0] Hin0. simpl.
    rewrite <- Hks, <- (Hkz k0 s0).
    + apply H2. by apply (elem_keys d2' k0 s0).
    + rewrite Hd. apply elem_of_app. right. by apply list_elem_of_further.
Qed.

Lemma matched_first (r : Result) :
  dict_wf (diff_indice r) -> diff_indice r <> [] ->
  exists k s l1 l2,
    matched_golden_ptn r = Ok (k, s) /\ diff_indice r = l1 ++ (k, s) :: l2 /\
    Forall (fun kv => s < snd kv) l1 /\ Forall (fun kv => s <= snd kv) l2.
Proof.
  intros Hwf Hne.
  destruct (argmin_first _ Hwf Hne) as (k & s & l1 & l2 & Hk & Hs & Hd & H1 & H2).
  exists k, s, l1, l2. unfold matched_golden_ptn. rewrite Hk, Hs. done.
Qed.

(** ** The verdict *)

Lemma result_type_cases (r : Result) (m : Z) (g : string * Z) :
  mrd r = Ok m -> matched_golden_ptn r = Ok g ->
  result_type r =
    Ok (if ((m <? 2000) && (snd g >? 2000))%bool then "TYPICAL"
        else if String.eqb (Py.slice_to 2 (filename r)) (Py.slice_to 2 (fst g))
             then "TRUE" else "FALSE").
Proof.
  intros Hm Hg. unfold result_type, prefix_verdict. rewrite Hm. simpl.
  rewrite Hg. simpl.
  destruct (m <? 2000), (snd g >? 2000),
    (String.eqb (Py.slice_to 2 (filename r)) (Py.slice_to 2 (fst g))); reflexivity.
Qed.

Lemma wf_by_decision {V} (d : dict V) : bool_decide (NoDup (keys d)) = true -> dict_wf d.
Proof. intros H. exact (bool_decide_eq_true_1 _ H). Qed.

Example basename_of_nested_path : basename "a/b/A_sample.wav" = "A_sample.wav".
Proof. reflexivity. Qed.

Example dirname_of_pickle : dirname (join "temp" "golden_ptns.pickle") = "temp".
Proof. reflexivity. Qed.

Example mismatch_case :
  result_type (mkResult "Z_sample.wav" [("A", 100); ("B", 9000)] 0) = Ok "FALSE".
Proof. reflexivity. Qed.

Example tie_case : matched_golden_ptn (mkResult "x.wav" scores_tied 0) = Ok ("C", 500).
Proof. reflexivity. Qed.

(** C1, as the code has it: outside the TYPICAL condition the verdict is the
    upper-cased text of the comparison of the two-character prefixes, 'TRUE'
    when they are equal and 'FALSE' when they differ; for the scores
    A 500, B 7000, C 8000 and the target A_sample.wav it is 'FALSE', the
    prefix 'A_' being compared with the whole one-character key 'A'. *)
Theorem prefix_verdict_is_TRUE_or_FALSE :
  (forall r : Result,
     diff_indice r <> [] ->
     exists m k s,
       mrd r = Ok m /\ matched_golden_ptn r = Ok (k, s) /\
       (~ (m < 2000 /\ s > 2000) ->
        result_type r =
          Ok (if String.eqb (Py.slice_to 2 (filename r)) (Py.slice_to 2 k)
              then "TRUE" else "FALSE"))) /\
  (forall t, result_type (mkResult "A_sample.wav" scores_A_decisive t) = Ok "FALSE").
Proof.
  split; [|reflexivity].
  intros r Hne.
  destruct (mrd_spec r Hne) as (hi & lo & Hm & _).
  destruct (matched_ok r Hne) as (k & s & Hg & _).
  exists (hi - lo), k, s. split; [done|]. split; [done|].
  intros Hnot. rewrite (result_type_cases r _ _ Hm Hg). simpl.
  destruct (Z.ltb_spec (hi - lo) 2000) as [Hlt|Hge]; [|done].
  unfold Z.gtb. destruct (Z.compare_spec s 2000); simpl; try done.
  exfalso. apply Hnot. lia.
Qed.

Lemma prefix_verdict_is_TRUE_or_FALSE_witness :
  diff_indice (mkResult "Z_sample.wav" [("A", 100); ("B", 9000)] 0) <> [] /\
  exists m k s,
    mrd (mkResult "Z_sample.wav" [("A", 100); ("B", 9000)] 0) = Ok m /\
    matched_golden_ptn (mkResult "Z_sample.wav" [("A", 100); ("B", 9000)] 0) = Ok (k, s) /\
    (~ (m < 2000 /\ s > 2000) ->
     result_type (mkResult "Z_sample.wav" [("A", 100); ("B", 9000)] 0) =
       Ok (if String.eqb
                (Py.slice_to 2 (filename (mkResult "Z_sample.wav" [("A", 100); ("B", 9000)] 0)))
                (Py.slice_to 2 k)
           then "TRUE" else "FALSE")).
Proof.
  split; [discriminate|].
  apply (proj1 prefix_verdict_is_TRUE_or_FALSE). discriminate.
Defined.

(** C1, as stated, fails on its own example: the verdict for the scores
    A 500, B 7000, C 8000 and the target A_sample.wav is 'FALSE', not
    'MATCH'. *)
Lemma A_sample_verdict_is_not_MATCH :
  result_type (mkResult "A_sample.wav" scores_A_decisive 0) = Ok "FALSE" /\
  result_type (mkResult "A_sample.wav" scores_A_decisive 0) <> Ok "MATCH".
Proof. split; [reflexivity|discriminate]. Qed.

(** C5: for a non-empty score map the verdict is 'TYPICAL' exactly when the
    margin is below 2000 and the matched score is above 2000, whatever the
    prefixes are; the scores A 3000, B 3500, C 3100 give 'TYPICAL' for every
    target path. *)
Theorem typical_iff_small_margin_and_large_score :
  (forall r : Result,
     diff_indice r <> [] ->
     exists m k s,
       mrd r = Ok m /\ matched_golden_ptn r = Ok (k, s) /\
       (result_type r = Ok "TYPICAL" <-> m < 2000 /\ s > 2000)) /\
  (forall path t, result_type (mkResult path scores_close t) = Ok "TYPICAL").
Proof.
  split; [|reflexivity].
  intros r Hne.
  destruct (mrd_spec r Hne) as (hi & lo & Hm & _).
  destruct (matched_ok r Hne) as (k & s & Hg & _).
  exists (hi - lo), k, s. split; [done|]. split; [done|].
  rewrite (result_type_cases r _ _ Hm Hg). simpl.
  destruct (Z.ltb_spec (hi - lo) 2000) as [Hlt|Hge]; simpl.
  - unfold Z.gtb. destruct (Z.compare_spec s 2000); simpl.
    + split; [|lia]. destruct (String.eqb _ _); discriminate.
    + split; [|lia]. destruct (String.eqb _ _); discriminate.
    + split; [lia|done].
  - split; [|lia]. destruct (String.eqb _ _); discriminate.
Qed.

Lemma typical_iff_small_margin_and_large_score_witness :
  diff_indice (mkResult "X_sample.wav" scores_close 0) <> [] /\
  exists m k s,
    mrd (mkResult "X_sample.wav" scores_close 0) = Ok m /\
    matched_golden_ptn (mkResult "X_sample.wav" scores_close 0) = Ok (k, s) /\
    (result_type (mkResult "X_sample.wav" scores_close 0) = Ok "TYPICAL" <->
     m < 2000 /\ s > 2000).
Proof.
  split; [discriminate|].
  apply (proj1 typical_iff_small_margin_and_large_score). discriminate.
Defined.

(** C6: for a non-empty score map (a dict, so with distinct keys) the matched
    reference is a pair of a key and a score where the score is the value
    stored under that key and is at most every value of the map, and the
    margin, the greatest minus the least value, is not negative. *)
Theorem matched_is_minimum_and_margin_nonneg (r : Result) :
  dict_wf (diff_indice r) -> diff_indice r <> [] ->
  exists k s m,
    matched_golden_ptn r = Ok (k, s) /\
    dict_get (diff_indice r) k = Some s /\
    Forall (fun v => s <= v) (values (diff_indice r)) /\
    mrd r = Ok m /\ 0 <= m.
Proof.
  intros Hwf Hne.
  destruct (matched_first r Hwf Hne) as (k & s & l1 & l2 & Hg & Hd & H1 & H2).
  destruct (mrd_spec r Hne) as (hi & lo & Hm & Hle & _).
  exists k, s, (hi - lo). split; [done|]. split; [|split; [|split; [done|lia]]].
  - apply dict_get_wf; [done|]. rewrite Hd. apply elem_of_app. right.
    apply list_elem_of_here.
  - unfold values. rewrite Hd, fmap_app, fmap_cons. simpl.
    apply Forall_app. split; [|constructor; [lia|]].
    + apply Forall_fmap. eapply Forall_impl; [exact H1|]. simpl. intros; lia.
    + apply Forall_fmap. exact H2.
Qed.

Lemma matched_is_minimum_and_margin_nonneg_witness :
  dict_wf scores_A_decisive /\ scores_A_decisive <> [] /\
  exists k s m,
    matched_golden_ptn (mkResult "A_sample.wav" scores_A_decisive 0) = Ok (k, s) /\
    dict_get scores_A_decisive k = Some s /\
    Forall (fun v => s <= v) (values scores_A_decisive) /\
    mrd (mkResult "A_sample.wav" scores_A_decisive 0) = Ok m /\ 0 <= m.
Proof.
  split; [apply wf_by_decision; reflexivity|]. split; [discriminate|].
  apply (matched_is_minimum_and_margin_nonneg (mkResult "A_sample.wav" scores_A_decisive 0)).
  - apply wf_by_decision. reflexivity.
  - discriminate.
Defined.

(** C10: when several references share the least score, the matched
    reference is the first of them in the insertion order of the map: every
    entry before it has a strictly greater score, every entry after it a
    score that is not smaller; the answer depends on the map alone, so that
    every access to the same map gives the same reference. *)
Theorem ties_go_to_the_first_entry (r : Result) :
  dict_wf (diff_indice r) -> diff_indice r <> [] ->
  exists k s l1 l2,
    matched_golden_ptn r = Ok (k, s) /\
    diff_indice r = l1 ++ (k, s) :: l2 /\
    Forall (fun kv => s < snd kv) l1 /\
    Forall (fun kv => s <= snd kv) l2 /\
    (forall r', diff_indice r' = diff_indice r -> matched_golden_ptn r' = Ok (k, s)).
Proof.
  intros Hwf Hne.
  destruct (matched_first r Hwf Hne) as (k & s & l1 & l2 & Hg & Hd & H1 & H2).
  exists k, s, l1, l2. repeat (split; [done|]).
  intros r' Heq. unfold matched_golden_ptn in *. by rewrite Heq.
Qed.

Lemma ties_go_to_the_first_entry_witness :
  dict_wf scores_tied /\ scores_tied <> [] /\
  exists k s l1 l2,
    matched_golden_ptn (mkResult "C_sample.wav" scores_tied 0) = Ok (k, s) /\
    scores_tied = l1 ++ (k, s) :: l2 /\
    Forall (fun kv => s < snd kv) l1 /\
    Forall (fun kv => s <= snd kv) l2 /\
    (forall r', diff_indice r' = scores_tied -> matched_golden_ptn r' = Ok (k, s)).
Proof.
  split; [apply wf_by_decision; reflexivity|]. split; [discriminate|].
  apply (ties_go_to_the_first_entry (mkResult "C_sample.wav" scores_tied 0)).
  - apply wf_by_decision. reflexivity.
  - discriminate.
Defined.

(** ** Running computations *)

Lemma bind_ok {A B} (m : M A) (k : A -> M B) w a w' :
  m w = Some (Ok a, w') -> (m ≫= k) w = k a w'.
Proof. intros H. unfold mbind, M_bind. by rewrite H. Qed.

Lemma bind_raise {A B} (m : M A) (k : A -> M B) w e w' :
  m w = Some (Raise e, w') -> (m ≫= k) w = Some (Raise e, w').
Proof. intros H. unfold mbind, M_bind. by rewrite H. Qed.

Lemma bind_inv_ok {A B} (m : M A) (k : A -> M B) w b w' :
  (m ≫= k) w = Some (Ok b, w') ->
  exists a w1, m w = Some (Ok a, w1) /\ k a w1 = Some (Ok b, w').
Proof.
  unfold mbind, M_bind. destruct (m w) as [[[a|e] w1]|]; [|done|done].
  intros H. by exists a, w1.
Qed.

Lemma try_except_ok {A} (body : M A) handler w a w' :
  body w = Some (Ok a, w') -> try_except body handler w = Some (Ok a, w').
Proof. intros H. unfold try_except. by rewrite H. Qed.

Lemma try_except_caught {A} (body : M A) handler w e w' (h : M A) :
  body w = Some (Raise e, w') -> handler e = Some h ->
  try_except body handler w = h w'.
Proof. intros H Hh. unfold try_except. by rewrite H, Hh. Qed.

Lemma try_except_passed {A} (body : M A) handler w e w' :
  body w = Some (Raise e, w') -> handler e = None ->
  try_except body handler w = Some (Raise e, w').
Proof. intros H Hh. unfold try_except. by rewrite H, Hh. Qed.

(** *** Paths that are not there *)

Lemma absent_error_OSError fs p : is_OSError (absent_error fs p) = true.
Proof. unfold absent_error. by destruct (under_a_file _ fs p). Qed.

(** For a path directly inside a directory of the working directory, only
    that directory decides. *)
Lemma under_a_file_one_level fs p d :
  dirname p = d -> d <> "" -> d <> p -> dirname d = "" ->
  under_a_file (String.length p) fs p = is_regular fs d.
Proof.
  intros Hd Hne Hp Hdd.
  destruct (String.length p) as [|n] eqn:Hlen.
  { destruct p; [|done]. by rewrite <- Hd in Hne. }
  simpl. rewrite Hd.
  destruct (String.eqb_spec d "") as [|_]; [done|].
  destruct (String.eqb_spec d p) as [|_]; [done|]. simpl.
  unfold is_regular. destruct (fs !! d) as [[acc data|acc]|]; [done| |].
  - destruct n; simpl; [done|]. by rewrite Hdd.
  - destruct n; simpl; [done|]. by rewrite Hdd.
Qed.

Lemma absent_error_pickle fs :
  absent_error fs pickle_path =
    if is_regular fs "temp" then NotADirectoryError else FileNotFoundError.
Proof.
  unfold absent_error.
  by rewrite (under_a_file_one_level fs pickle_path "temp").
Qed.

Lemma lift_reads_only {A} (r : res A) : reads_only (lift r).
Proof. intros w. by exists r. Qed.

Lemma open_rb_reads_only p : reads_only (open_rb p).
Proof.
  intros w. unfold open_rb.
  destruct (files w !! p) as [[[] data|acc]|]; by eexists.
Qed.

Lemma os_listdir_reads_only p : reads_only (os_listdir p).
Proof.
  intros w. unfold os_listdir.
  destruct (files w !! p) as [[acc data|[]]|]; by eexists.
Qed.

Lemma os_listdir_raises p w e w' :
  os_listdir p w = Some (Raise e, w') -> is_OSError e = true.
Proof.
  unfold os_listdir.
  destruct (files w !! p) as [[acc data|[]]|]; intros H; simplify_eq; [done..|].
  apply absent_error_OSError.
Qed.

Lemma parent_refuses_OSError fs p e : parent_refuses fs p = Some e -> is_OSError e = true.
Proof.
  unfold parent_refuses. destruct (String.eqb (dirname p) ""); [done|].
  destruct (fs !! dirname p) as [[acc data|[]]|]; intros H; simplify_eq; [done..|].
  apply absent_error_OSError.
Qed.

(** [os.remove] under [except OSError: pass] always comes back; it leaves no
    regular file at the path unless the directory refused the removal. *)
Lemma remove_quietly p w :
  exists w',
    try_except (os_remove p) (fun e => if is_OSError e then Some (mret tt) else None) w
      = Some (Ok tt, w') /\
    (isfile p w' = Some (Ok false, w') \/ is_Some (parent_refuses (files w') p)).
Proof.
  unfold try_except, os_remove, isfile.
  destruct (files w !! p) as [[acc data|acc]|] eqn:Hp; simpl.
  - destruct (parent_refuses (files w) p) as [e|] eqn:Hpar.
    + rewrite (parent_refuses_OSError _ _ _ Hpar). exists w. split; [done|].
      right. by rewrite Hpar.
    + eexists. split; [done|]. left. simpl. by rewrite lookup_delete_eq.
  - exists w. split; [done|]. left. by rewrite Hp.
  - rewrite absent_error_OSError. exists w. split; [done|]. left. by rewrite Hp.
Qed.

Section Store.

Context `{E : Externals}.

Lemma wav_read_reads_only p : reads_only (wav_read p).
Proof.
  intros w. unfold wav_read.
  destruct (open_rb_reads_only p w) as [[data|e] H].
  - rewrite (bind_ok _ _ _ _ _ H). by eexists.
  - rewrite (bind_raise _ _ _ _ _ H). by eexists.
Qed.

(** *** One pass of the loop *)

Lemma attempt_loaded folderpath w data golden_ptns :
  files w !! pickle_path = Some (File true data) ->
  pickle_loads data = Ok golden_ptns ->
  attempt folderpath w = Some (Ok (Loaded golden_ptns), w).
Proof.
  intros Hf Hl. unfold attempt. apply try_except_ok.
  rewrite (bind_ok _ _ w data w); [|unfold open_rb; by rewrite Hf].
  rewrite (bind_ok _ _ w golden_ptns w); [done|].
  unfold pickle_load, lift. by rewrite Hl.
Qed.

Lemma attempt_unloadable w data e :
  files w !! pickle_path = Some (File true data) ->
  pickle_loads data = Raise e ->
  (pfile ← open_rb pickle_path;
   golden_ptns ← pickle_load pfile;
   mret (Loaded golden_ptns)) w = Some (Raise e, w).
Proof.
  intros Hf Hl.
  rewrite (bind_ok _ _ w data w); [|unfold open_rb; by rewrite Hf].
  apply bind_raise. unfold pickle_load, lift. by rewrite Hl.
Qed.

Lemma attempt_empty folderpath w data :
  files w !! pickle_path = Some (File true data) ->
  pickle_loads data = Raise EOFError ->
  attempt folderpath w = Some (Ok Continue, put_line warning_empty w).
Proof.
  intros Hf Hl. unfold attempt.
  erewrite try_except_caught; [|by apply (attempt_unloadable w data)|done].
  done.
Qed.

Lemma attempt_corrupt folderpath w data err :
  files w !! pickle_path = Some (File true data) ->
  pickle_loads data = Raise (UnpicklingError err) ->
  attempt folderpath w = Some (Ok Continue, put_line (warning_unpickling err) w).
Proof.
  intros Hf Hl. unfold attempt.
  erewrite try_except_caught; [|by apply (attempt_unloadable w data)|done].
  done.
Qed.

Lemma attempt_absent folderpath w :
  files w !! pickle_path = None ->
  is_regular (files w) "temp" = false ->
  attempt folderpath w =
    (golden_ptns ← build_golden_ptns folderpath; mret (Built golden_ptns)) w.
Proof.
  intros Hf Ht. unfold attempt, try_except.
  rewrite (bind_raise _ _ w FileNotFoundError w); [done|].
  unfold open_rb. by rewrite Hf, absent_error_pickle, Ht.
Qed.

(** With a regular file in the place of the temporary directory the pickle
    cannot even be looked for: [open] raises NotADirectoryError, for which
    the [try] has no clause. *)
Lemma attempt_blocked folderpath w :
  files w !! pickle_path = None ->
  is_regular (files w) "temp" = true ->
  attempt folderpath w = Some (Raise NotADirectoryError, w).
Proof.
  intros Hf Ht. unfold attempt. apply try_except_passed; [|done].
  apply bind_raise. unfold open_rb. by rewrite Hf, absent_error_pickle, Ht.
Qed.

(** *** The loop *)

Lemma read_golden_ptns_continue fuel folderpath w line :
  attempt folderpath w = Some (Ok Continue, put_line line w) ->
  read_golden_ptns (S fuel) folderpath w =
    read_golden_ptns fuel folderpath (others (put_line line w)).
Proof.
  intros Ha. simpl. rewrite (bind_ok _ _ _ _ _ Ha).
  by rewrite (bind_ok yield _ (put_line line w) tt (others (put_line line w))).
Qed.

Lemma read_golden_ptns_loaded fuel folderpath w data golden_ptns :
  files w !! pickle_path = Some (File true data) ->
  pickle_loads data = Ok golden_ptns ->
  read_golden_ptns (S fuel) folderpath w = Some (Ok golden_ptns, w).
Proof.
  intros Hf Hl. simpl.
  by rewrite (bind_ok _ _ _ _ _ (attempt_loaded folderpath w data golden_ptns Hf Hl)).
Qed.

Lemma read_golden_ptns_empty_step fuel folderpath w :
  files w !! pickle_path = Some (File true []) ->
  read_golden_ptns (S fuel) folderpath w =
    read_golden_ptns fuel folderpath (after_warning w).
Proof.
  intros Hf. apply read_golden_ptns_continue.
  apply (attempt_empty folderpath w []); [done|apply pickle_loads_empty].
Qed.

Lemma read_golden_ptns_empty_steps n fuel folderpath w :
  (forall i, (i < n)%nat ->
     files (Nat.iter i after_warning w) !! pickle_path = Some (File true [])) ->
  read_golden_ptns (n + fuel) folderpath w =
    read_golden_ptns fuel folderpath (Nat.iter n after_warning w).
Proof.
  revert w. induction n as [|n IH]; intros w Hn; [done|].
  change (S n + fuel)%nat with (S (n + fuel)).
  rewrite read_golden_ptns_empty_step; [|apply (Hn O); lia].
  rewrite IH.
  - by rewrite Nat.iter_succ_r.
  - intros i Hi. rewrite <- Nat.iter_succ_r. apply Hn. lia.
Qed.

Lemma read_golden_ptns_spins folderpath w :
  (forall i, files (Nat.iter i after_warning w) !! pickle_path = Some (File true [])) ->
  forall fuel, read_golden_ptns fuel folderpath w = None.
Proof.
  intros Hall fuel.
  rewrite <- (Nat.add_0_r fuel).
  rewrite read_golden_ptns_empty_steps; [done|]. intros i _. apply Hall.
Qed.

End Store.

(** ** The pattern store *)

Section StoreClaims.

Context `{E : Externals}.

(** C7, as the code has it: when the pickle exists but loading it fails
    because it is empty (EOFError) or cannot be unpickled (UnpicklingError),
    the pass raises nothing: it prints one warning, which for an unpickling
    error carries the text of the error, and the loop goes on to its next
    pass, which loads the pickle again and returns the library if it now
    loads. A load that fails with an exception for which the [try] has no
    clause is not retried: the exception is raised to the caller at once. *)
Theorem unloadable_blob_is_warned_about_and_retried
    (folderpath : string) (w : world) (data : list byte) :
  files w !! pickle_path = Some (File true data) ->
  (data = [] -> pickle_loads data = Raise EOFError) /\
  (pickle_loads data = Raise EOFError ->
     attempt folderpath w = Some (Ok Continue, put_line warning_empty w) /\
     (forall fuel,
        read_golden_ptns (S fuel) folderpath w =
          read_golden_ptns fuel folderpath (others (put_line warning_empty w))) /\
     (forall fuel data' golden_ptns,
        files (others (put_line warning_empty w)) !! pickle_path = Some (File true data') ->
        pickle_loads data' = Ok golden_ptns ->
        read_golden_ptns (S (S fuel)) folderpath w =
          Some (Ok golden_ptns, others (put_line warning_empty w)))) /\
  (forall err, pickle_loads data = Raise (UnpicklingError err) ->
     attempt folderpath w = Some (Ok Continue, put_line (warning_unpickling err) w) /\
     (forall fuel,
        read_golden_ptns (S fuel) folderpath w =
          read_golden_ptns fuel folderpath (others (put_line (warning_unpickling err) w))) /\
     (forall fuel data' golden_ptns,
        files (others (put_line (warning_unpickling err) w)) !! pickle_path
          = Some (File true data') ->
        pickle_loads data' = Ok golden_ptns ->
        read_golden_ptns (S (S fuel)) folderpath w =
          Some (Ok golden_ptns, others (put_line (warning_unpickling err) w)))) /\
  (forall e, pickle_loads data = Raise e -> has_clause e = false ->
     forall fuel, read_golden_ptns (S fuel) folderpath w = Some (Raise e, w)).
Proof.
  intros Hf. split; [|split; [|split]].
  - intros ->. apply pickle_loads_empty.
  - intros Hl. pose proof (attempt_empty folderpath w data Hf Hl) as Ha.
    split; [done|]. split.
    + intros fuel. by apply read_golden_ptns_continue.
    + intros fuel data' golden_ptns Hf' Hl'.
      rewrite (read_golden_ptns_continue (S fuel) folderpath w warning_empty Ha).
      by apply (read_golden_ptns_loaded fuel folderpath _ data').
  - intros err Hl. pose proof (attempt_corrupt folderpath w data err Hf Hl) as Ha.
    split; [done|]. split.
    + intros fuel. by apply read_golden_ptns_continue.
    + intros fuel data' golden_ptns Hf' Hl'.
      rewrite (read_golden_ptns_continue (S fuel) folderpath w (warning_unpickling err) Ha).
      by apply (read_golden_ptns_loaded fuel folderpath _ data').
  - intros e Hl He fuel. simpl. apply bind_raise.
    unfold attempt. apply try_except_passed; [by apply (attempt_unloadable w data)|].
    by destruct e.
Qed.

(** C8: with a pickle that loads, a call returns the loaded library from the
    first pass and leaves the world as it was, so that a second call reads
    the same bytes and returns the same library; each pass ends in the
    [try] block ([Loaded]), never in the handler that builds the patterns. *)
Theorem populated_cache_is_read_twice_alike
    (folderpath : string) (w : world) (data : list byte)
    (golden_ptns : dict Fingerprint) :
  files w !! pickle_path = Some (File true data) ->
  pickle_loads data = Ok golden_ptns ->
  attempt folderpath w = Some (Ok (Loaded golden_ptns), w) /\
  forall fuel1 fuel2,
    (first ← read_golden_ptns (S fuel1) folderpath;
     second ← read_golden_ptns (S fuel2) folderpath;
     mret (first, second)) w = Some (Ok (golden_ptns, golden_ptns), w).
Proof.
  intros Hf Hl. split; [by apply (attempt_loaded folderpath w data)|].
  intros fuel1 fuel2.
  rewrite (bind_ok _ _ w golden_ptns w);
    [|by apply (read_golden_ptns_loaded fuel1 folderpath w data)].
  rewrite (bind_ok _ _ w golden_ptns w);
    [done|by apply (read_golden_ptns_loaded fuel2 folderpath w data)].
Qed.

(** C3, as the code has it: while the pickle is a zero-byte file every pass
    prints the warning and the loop goes round again without raising; the
    call returns the library as soon as a pass finds a pickle that loads,
    which takes another process to write it; when the pickle stays empty the
    call never returns. *)
Theorem empty_blob_is_retried_until_it_changes (folderpath : string) (w : world) :
  (forall n,
     (forall i, (i < n)%nat ->
        files (Nat.iter i after_warning w) !! pickle_path = Some (File true [])) ->
     (forall fuel, (fuel <= n)%nat -> read_golden_ptns fuel folderpath w = None) /\
     (forall fuel,
        read_golden_ptns (n + fuel) folderpath w =
          read_golden_ptns fuel folderpath (Nat.iter n after_warning w)) /\
     (forall data golden_ptns fuel,
        files (Nat.iter n after_warning w) !! pickle_path = Some (File true data) ->
        pickle_loads data = Ok golden_ptns ->
        read_golden_ptns (n + S fuel) folderpath w =
          Some (Ok golden_ptns, Nat.iter n after_warning w))) /\
  ((forall i, files (Nat.iter i after_warning w) !! pickle_path = Some (File true [])) ->
   forall fuel, read_golden_ptns fuel folderpath w = None).
Proof.
  split; [|apply read_golden_ptns_spins].
  intros n Hn. split; [|split].
  - intros fuel Hle. rewrite <- (Nat.add_0_r fuel).
    rewrite read_golden_ptns_empty_steps; [done|]. intros i Hi. apply Hn. lia.
  - intros fuel. by apply read_golden_ptns_empty_steps.
  - intros data golden_ptns fuel Hf Hl.
    rewrite read_golden_ptns_empty_steps; [|done].
    by apply (read_golden_ptns_loaded fuel folderpath _ data).
Qed.

End StoreClaims.

Lemma unloadable_blob_is_warned_about_and_retried_witness :
  files Bench.torn_blob !! pickle_path = Some (File true (take 5 (Bench.dumps Bench.golden))) /\
  forall fuel,
    @read_golden_ptns Bench.alone (S fuel) "golden_wav" Bench.torn_blob =
      @read_golden_ptns Bench.alone fuel "golden_wav"
        (put_line (warning_unpickling "pickle data was truncated. ") Bench.torn_blob).
Proof.
  split; [reflexivity|].
  apply (proj1 (proj2 (proj1 (proj2 (proj2
           (@unloadable_blob_is_warned_about_and_retried Bench.alone
              "golden_wav" Bench.torn_blob (take 5 (Bench.dumps Bench.golden)) eq_refl)))
           "pickle data was truncated. " eq_refl))).
Defined.

(** C7, as stated, fails for a pickle that is corrupt in another way: when
    unpickling raises ValueError (text where an integer is expected), no
    warning is printed and nothing is retried; the first pass raises the
    ValueError to the caller. *)
Lemma garbled_blob_failure_is_raised :
  files Bench.garbled_blob !! pickle_path = Some (File true [x49; x61; x62; x63; x0a; x2e]) /\
  @pickle_loads Bench.alone [x49; x61; x62; x63; x0a; x2e]
    = Raise (ValueError "could not convert string to int") /\
  forall fuel,
    @read_golden_ptns Bench.alone (S fuel) "golden_wav" Bench.garbled_blob
      = Some (Raise (ValueError "could not convert string to int"), Bench.garbled_blob).
Proof. split; [reflexivity|]. split; [reflexivity|]. intros fuel. reflexivity. Qed.

Lemma populated_cache_is_read_twice_alike_witness :
  files Bench.cached !! pickle_path = Some (File true (Bench.dumps Bench.golden)) /\
  @pickle_loads Bench.alone (Bench.dumps Bench.golden) = Ok Bench.golden /\
  @attempt Bench.alone "golden_wav" Bench.cached
    = Some (Ok (@Loaded Bench.alone Bench.golden), Bench.cached) /\
  forall fuel1 fuel2,
    (first ← @read_golden_ptns Bench.alone (S fuel1) "golden_wav";
     second ← @read_golden_ptns Bench.alone (S fuel2) "golden_wav";
     mret (first, second)) Bench.cached = Some (Ok (Bench.golden, Bench.golden), Bench.cached).
Proof.
  split; [reflexivity|]. split; [reflexivity|].
  apply (@populated_cache_is_read_twice_alike Bench.alone "golden_wav" Bench.cached
           (Bench.dumps Bench.golden) Bench.golden); reflexivity.
Defined.

Lemma racing_blob_empty_twice (i : nat) :
  (i < 2)%nat ->
  files (Nat.iter i (@after_warning Bench.racing) Bench.empty_blob) !! pickle_path
    = Some (File true []).
Proof.
  intros Hi. destruct i as [|[|i]]; [reflexivity|reflexivity|lia].
Defined.

Lemma empty_blob_is_retried_until_it_changes_witness :
  (forall fuel, (fuel <= 2)%nat ->
     @read_golden_ptns Bench.racing fuel "golden_wav" Bench.empty_blob = None) /\
  @read_golden_ptns Bench.racing 3 "golden_wav" Bench.empty_blob =
    Some (Ok Bench.golden, Nat.iter 2 (@after_warning Bench.racing) Bench.empty_blob).
Proof.
  destruct (proj1 (@empty_blob_is_retried_until_it_changes Bench.racing
                     "golden_wav" Bench.empty_blob) 2%nat racing_blob_empty_twice)
    as (Hrun & _ & Hret).
  split; [exact Hrun|].
  apply (Hret (Bench.dumps Bench.golden) Bench.golden 0%nat); reflexivity.
Defined.

(** C3, as stated, fails for a process that is alone with a zero-byte
    pickle: whatever the number of passes, the call has not returned. *)
Lemma lone_process_never_returns_on_empty_blob :
  files Bench.empty_blob !! pickle_path = Some (File true []) /\
  ~ exists fuel r w',
      @read_golden_ptns Bench.alone fuel "golden_wav" Bench.empty_blob = Some (r, w').
Proof.
  split; [reflexivity|].
  intros (fuel & r & w' & Hrun).
  rewrite (@read_golden_ptns_spins Bench.alone "golden_wav" Bench.empty_blob) in Hrun;
    [discriminate|].
  intros i. induction i as [|i IH]; [reflexivity|].
  simpl. unfold after_warning at 1. simpl. exact IH.
Qed.

(** *** Building the patterns *)

Section BuildClaims.

Context `{E : Externals}.

Lemma read_golden_ptns_S fuel folderpath :
  read_golden_ptns (S fuel) folderpath =
    (p ← attempt folderpath;
     match p with
     | Loaded golden_ptns => mret golden_ptns
     | Built golden_ptns => mret golden_ptns
     | Continue => _ ← yield; read_golden_ptns fuel folderpath
     end).
Proof. reflexivity. Qed.

Lemma extract_all_no_files folderpath names golden_ptns w :
  Forall (fun f => isfile (join folderpath f) w = Some (Ok false, w)) names ->
  extract_all folderpath names golden_ptns w = Some (Ok golden_ptns, w).
Proof.
  induction 1 as [|f names Hf _ IH]; simpl; [done|].
  by rewrite (bind_ok _ _ _ _ _ Hf).
Qed.

Lemma open_wb_new_in_temp data w :
  files w !! pickle_path = None ->
  files w !! "temp" = Some (Dir true) ->
  open_wb pickle_path data w =
    Some (Ok tt, set_files (<[pickle_path := File true data]> (files w)) w).
Proof.
  intros Hf Ht. unfold open_wb, parent_refuses. rewrite Hf.
  change (dirname pickle_path) with "temp". simpl. by rewrite Ht.
Qed.

Lemma read_golden_ptns_listing_error fuel folderpath w e :
  files w !! pickle_path = None ->
  is_regular (files w) "temp" = false ->
  os_listdir folderpath w = Some (Raise e, w) ->
  read_golden_ptns (S fuel) folderpath w = Some (Raise e, w).
Proof.
  intros Hf Ht Hl. rewrite read_golden_ptns_S. apply bind_raise.
  rewrite (attempt_absent folderpath w Hf Ht). apply bind_raise.
  unfold build_golden_ptns. by apply bind_raise.
Qed.

(** C4, as the code has it: with no pickle present (and no regular file in
    the place of the temporary directory, so that the pickle is looked for
    and not found), a directory that is missing, is a regular file or is
    unreadable makes the call raise the OSError of the listing:
    FileNotFoundError for a missing one, unless the way to it leads through
    a regular file, NotADirectoryError and PermissionError for the others; a
    readable directory without any regular file is no error: the call
    returns the empty library and saves its pickle. *)
Theorem listing_error_is_raised_and_empty_directory_is_not_an_error
    (folderpath : string) (w : world) :
  files w !! pickle_path = None ->
  is_regular (files w) "temp" = false ->
  (files w !! folderpath = None ->
     (forall fuel,
        read_golden_ptns (S fuel) folderpath w =
          Some (Raise (absent_error (files w) folderpath), w)) /\
     (under_a_file (String.length folderpath) (files w) folderpath = false ->
      absent_error (files w) folderpath = FileNotFoundError) /\
     (under_a_file (String.length folderpath) (files w) folderpath = true ->
      absent_error (files w) folderpath = NotADirectoryError)) /\
  (forall acc data, files w !! folderpath = Some (File acc data) ->
     forall fuel,
       read_golden_ptns (S fuel) folderpath w = Some (Raise NotADirectoryError, w)) /\
  (files w !! folderpath = Some (Dir false) ->
     forall fuel,
       read_golden_ptns (S fuel) folderpath w = Some (Raise PermissionError, w)) /\
  (files w !! folderpath = Some (Dir true) ->
     Forall (fun f => isfile (join folderpath f) w = Some (Ok false, w))
            (entries (files w) folderpath) ->
     files w !! "temp" = Some (Dir true) ->
     forall fuel,
       read_golden_ptns (S fuel) folderpath w =
         Some (Ok [], set_files (<[pickle_path := File true (pickle_dumps [])]> (files w)) w)) /\
  is_OSError FileNotFoundError = true /\ is_OSError NotADirectoryError = true /\
  is_OSError PermissionError = true.
Proof.
  intros Hf Htemp. split; [|split; [|split; [|split; [|done]]]].
  - intros Hd. split; [|split].
    + intros fuel. apply read_golden_ptns_listing_error; [done|done|].
      unfold os_listdir. by rewrite Hd.
    + intros Hu. unfold absent_error. by rewrite Hu.
    + intros Hu. unfold absent_error. by rewrite Hu.
  - intros acc data Hd fuel. apply read_golden_ptns_listing_error; [done|done|].
    unfold os_listdir. by rewrite Hd.
  - intros Hd fuel. apply read_golden_ptns_listing_error; [done|done|].
    unfold os_listdir. by rewrite Hd.
  - intros Hd Hnames Ht fuel. rewrite read_golden_ptns_S.
    assert (Hl : os_listdir folderpath w = Some (Ok (entries (files w) folderpath), w)).
    { unfold os_listdir. by rewrite Hd. }
    rewrite (bind_ok _ _ w (Built [])
               (set_files (<[pickle_path := File true (pickle_dumps [])]> (files w)) w));
      [done|].
    rewrite (attempt_absent folderpath w Hf Htemp).
    rewrite (bind_ok _ _ w ([] : dict Fingerprint)
               (set_files (<[pickle_path := File true (pickle_dumps [])]> (files w)) w));
      [done|].
    unfold build_golden_ptns.
    rewrite (bind_ok _ _ _ _ _ Hl).
    rewrite (bind_ok _ _ _ _ _ (extract_all_no_files folderpath _ [] w Hnames)).
    by rewrite (bind_ok _ _ _ _ _ (open_wb_new_in_temp (pickle_dumps []) w Hf Ht)).
Qed.

End BuildClaims.

Lemma listing_error_is_raised_and_empty_directory_is_not_an_error_witness :
  files Bench.no_dir !! pickle_path = None /\
  is_regular (files Bench.no_dir) "temp" = false /\
  files Bench.no_dir !! "golden_wav" = None /\
  forall fuel,
    @read_golden_ptns Bench.alone (S fuel) "golden_wav" Bench.no_dir
      = Some (Raise FileNotFoundError, Bench.no_dir).
Proof.
  split; [reflexivity|]. split; [reflexivity|]. split; [reflexivity|].
  exact (proj1 (proj1 (@listing_error_is_raised_and_empty_directory_is_not_an_error
                         Bench.alone "golden_wav" Bench.no_dir eq_refl eq_refl) eq_refl)).
Defined.

(** C4, as stated, fails on a readable directory without files when no
    pickle is present: the call returns the empty library instead of raising
    an IOError. *)
Lemma empty_directory_returns_empty_library :
  files Bench.no_refs !! pickle_path = None /\
  os_listdir "golden_wav" Bench.no_refs = Some (Ok [], Bench.no_refs) /\
  forall fuel,
    exists w',
      @read_golden_ptns Bench.alone (S fuel) "golden_wav" Bench.no_refs = Some (Ok [], w').
Proof.
  split; [reflexivity|]. split; [reflexivity|].
  intros fuel. eexists. reflexivity.
Qed.

(** ** The pipeline *)

Section PipelineClaims.

Context `{E : Externals}.

Lemma ffmpeg_missing filepath tmp_filepath w :
  which "ffmpeg" = None ->
  subprocess_run (ffmpeg_argv filepath tmp_filepath) w = Some (Raise FileNotFoundError, w).
Proof. intros Hw. unfold subprocess_run, ffmpeg_argv. by rewrite Hw. Qed.

Lemma ffmpeg_found filepath tmp_filepath w run :
  which "ffmpeg" = Some run ->
  subprocess_run (ffmpeg_argv filepath tmp_filepath) w =
    Some (Ok tt, run (ffmpeg_argv filepath tmp_filepath) w).
Proof. intros Hw. unfold subprocess_run, ffmpeg_argv. by rewrite Hw. Qed.


(** C2, as the code has it: a call that returns has tried to remove the
    temporary file just before, so that no regular file is left at the
    temporary path unless its directory refused the removal; any OSError of
    the removal is passed over: once the store, the converter, the reading
    of the wave file, the features and the comparison have succeeded, the
    call returns its Result whatever the removal does; a call that raises
    after the converter has run removes nothing: it leaves the world as the
    converter left it. *)
Theorem temporary_file_is_removed_on_return_only
    (fuel : nat) (filepath : string) (threshold : option Z) (scan_step : Z)
    (multiproc : bool) (w : world) :
  (forall r w',
     televoice_identify fuel filepath threshold scan_step multiproc w = Some (Ok r, w') ->
     isfile (tmp_path filepath) w' = Some (Ok false, w') \/
     is_Some (parent_refuses (files w') (tmp_path filepath))) /\
  (forall golden_ptns w1 run e w',
     read_golden_ptns fuel "golden_wav" w = Some (Ok golden_ptns, w1) ->
     which "ffmpeg" = Some run ->
     televoice_identify fuel filepath threshold scan_step multiproc w = Some (Raise e, w') ->
     w' = run (ffmpeg_argv filepath (tmp_path filepath)) w1) /\
  (forall golden_ptns w1 run rs target_mfcc scores,
     read_golden_ptns fuel "golden_wav" w = Some (Ok golden_ptns, w1) ->
     which "ffmpeg" = Some run ->
     wav_read (tmp_path filepath) (run (ffmpeg_argv filepath (tmp_path filepath)) w1)
       = Some (Ok rs, run (ffmpeg_argv filepath (tmp_path filepath)) w1) ->
     mfcc (snd rs) (fst rs) false = Ok target_mfcc ->
     ptns_cmp golden_ptns target_mfcc threshold scan_step multiproc = Ok scores ->
     exists w',
       televoice_identify fuel filepath threshold scan_step multiproc w =
         Some (Ok (mkResult filepath scores
                     (clock (run (ffmpeg_argv filepath (tmp_path filepath)) w1) - clock w)),
               w') /\
       (isfile (tmp_path filepath) w' = Some (Ok false, w') \/
        is_Some (parent_refuses (files w') (tmp_path filepath)))).
Proof.
  split; [|split].
  - intros r w' H. unfold televoice_identify in H.
    apply bind_inv_ok in H as (start_time & w1 & _ & H).
    apply bind_inv_ok in H as (golden_ptns & w2 & _ & H).
    apply bind_inv_ok in H as (u & w3 & _ & H).
    apply bind_inv_ok in H as (rs & w4 & _ & H).
    apply bind_inv_ok in H as (target_mfcc & w5 & _ & H).
    apply bind_inv_ok in H as (scores & w6 & _ & H).
    apply bind_inv_ok in H as (now & w7 & _ & H).
    apply bind_inv_ok in H as (u' & w8 & Hrm & H).
    destruct (remove_quietly (tmp_path filepath) w7) as (w9 & Hrm' & Hgone).
    rewrite Hrm' in Hrm. injection Hrm as _ <-.
    injection H as _ <-. exact Hgone.
  - intros golden_ptns w1 run e w' Hload Hw H. unfold televoice_identify in H.
    rewrite (bind_ok time_time _ w (clock w) w) in H; [|done].
    rewrite (bind_ok _ _ _ _ _ Hload) in H.
    rewrite (bind_ok _ _ w1 tt (run (ffmpeg_argv filepath (tmp_path filepath)) w1)) in H;
      [|by apply try_except_ok, ffmpeg_found].
    set (w2 := run (ffmpeg_argv filepath (tmp_path filepath)) w1) in *.
    destruct (wav_read_reads_only (tmp_path filepath) w2) as [[rs|e1] Hread].
    2:{ rewrite (bind_raise _ _ _ _ _ Hread) in H. by injection H as _ <-. }
    rewrite (bind_ok _ _ _ _ _ Hread) in H.
    destruct (mfcc (snd rs) (fst rs) false) as [target_mfcc|e2] eqn:Hmfcc.
    2:{ rewrite (bind_raise _ _ w2 e2 w2) in H; [|done]. by injection H as _ <-. }
    rewrite (bind_ok _ _ w2 target_mfcc w2) in H; [|done].
    destruct (ptns_cmp golden_ptns target_mfcc threshold scan_step multiproc)
      as [scores|e3] eqn:Hcmp.
    2:{ rewrite (bind_raise _ _ w2 e3 w2) in H; [|done]. by injection H as _ <-. }
    rewrite (bind_ok _ _ w2 scores w2) in H; [|done].
    rewrite (bind_ok time_time _ w2 (clock w2) w2) in H; [|done].
    destruct (remove_quietly (tmp_path filepath) w2) as (w9 & Hrm & _).
    rewrite (bind_ok _ _ _ _ _ Hrm) in H. discriminate H.
  - intros golden_ptns w1 run rs target_mfcc scores Hload Hw Hread Hm Hc.
    unfold televoice_identify.
    rewrite (bind_ok time_time _ w (clock w) w); [|done].
    rewrite (bind_ok _ _ _ _ _ Hload).
    rewrite (bind_ok _ _ w1 tt (run (ffmpeg_argv filepath (tmp_path filepath)) w1));
      [|by apply try_except_ok, ffmpeg_found].
    set (w2 := run (ffmpeg_argv filepath (tmp_path filepath)) w1) in *.
    rewrite (bind_ok _ _ _ _ _ Hread).
    rewrite (bind_ok _ _ w2 target_mfcc w2); [|unfold lift; by rewrite Hm].
    rewrite (bind_ok _ _ w2 scores w2); [|unfold lift; by rewrite Hc].
    rewrite (bind_ok time_time _ w2 (clock w2) w2); [|done].
    destruct (remove_quietly (tmp_path filepath) w2) as (w9 & Hrm & Hgone).
    rewrite (bind_ok _ _ _ _ _ Hrm). by exists w9.
Qed.

End PipelineClaims.


Lemma temporary_file_is_removed_on_return_only_witness :
  (exists r w',
     @televoice_identify Bench.alone 1 "A_sample.wav" None 1 false Bench.fresh
       = Some (Ok r, w') /\
     (isfile (tmp_path "A_sample.wav") w' = Some (Ok false, w') \/
      is_Some (parent_refuses (files w') (tmp_path "A_sample.wav")))) /\
  (os_remove (tmp_path "A_sample.wav")
     (Bench.transcode (@ffmpeg_argv "A_sample.wav" (tmp_path "A_sample.wav")) Bench.sealed)
     = Some (Raise PermissionError,
             Bench.transcode (@ffmpeg_argv "A_sample.wav" (tmp_path "A_sample.wav"))
               Bench.sealed) /\
   exists r w',
     @televoice_identify Bench.alone 1 "A_sample.wav" None 1 false Bench.sealed
       = Some (Ok r, w') /\
     diff_indice r = [("A1.wav", 100); ("B2.wav", 28900)]).
Proof.
  split.
  - eexists _, _. split.
    + vm_compute. reflexivity.
    + eapply (proj1 (@temporary_file_is_removed_on_return_only Bench.alone 1
                       "A_sample.wav" None 1 false Bench.fresh)).
      vm_compute. reflexivity.
  - split; [reflexivity|].
    destruct (proj2 (proj2 (@temporary_file_is_removed_on_return_only Bench.alone 1
                              "A_sample.wav" None 1 false Bench.sealed))
                Bench.golden Bench.sealed Bench.transcode (8000, [10; 20; 31]) [10; 20; 31]
                [("A1.wav", 100); ("B2.wav", 28900)]
                eq_refl eq_refl eq_refl eq_refl eq_refl) as (w' & H & _).
    eexists _, w'. split; [exact H|reflexivity].
Defined.

(** C2, as stated, fails when a step after the conversion raises: with a
    scan step of 0 the comparison raises ValueError, the call raises it in
    turn, and the temporary file the converter wrote is still on the disk. *)
Lemma failed_comparison_leaves_temporary_file :
  exists e w',
    @televoice_identify Bench.alone 1 "A_sample.wav" None 0 false Bench.fresh
      = Some (Raise e, w') /\
    tmp_path "A_sample.wav" = "temp/A_sample.wav.tmp" /\
    files Bench.fresh !! "temp/A_sample.wav.tmp" = None /\
    files w' !! "temp/A_sample.wav.tmp" = Some (File true [x52; x0a; x14; x1f]).
Proof.
  eexists _, _. split; [vm_compute; reflexivity|].
  split; [reflexivity|]. split; reflexivity.
Qed.

(** In a temporary directory that refuses the removal the file outlives a
    call that returns. *)
Example refused_removal_is_passed_over :
  exists r w',
    @televoice_identify Bench.alone 1 "A_sample.wav" None 1 false Bench.sealed
      = Some (Ok r, w') /\
    files w' !! "temp/A_sample.wav.tmp" = Some (File true [x52; x0a; x14; x1f]).
Proof. eexists _, _. split; [vm_compute; reflexivity|reflexivity]. Qed.

(** * Further properties *)

(** ** Paths *)

Lemma substring_all (s : string) : substring 0 (String.length s) s = s.
Proof. induction s as [|c s IH]; simpl; [done|]. by rewrite IH. Qed.

Lemma rfind_slash_ge (s : string) : -1 <= Py.rfind_slash s.
Proof.
  induction s as [|c s IH]; simpl; [lia|].
  destruct (Z.leb_spec 0 (Py.rfind_slash s)); [lia|].
  destruct (Ascii.eqb c "/"); lia.
Qed.

Lemma basename_cons (c : ascii) (p : string) :
  basename (String c p) =
    if 0 <=? Py.rfind_slash p then basename p
    else if Ascii.eqb c "/" then p else String c p.
Proof.
  unfold basename, Py.slice_from. simpl Py.rfind_slash.
  destruct (Z.leb_spec 0 (Py.rfind_slash p)) as [Hge|Hlt].
  - replace (Z.to_nat (Py.rfind_slash p + 1 + 1)) with (S (Z.to_nat (Py.rfind_slash p + 1)))
      by lia.
    reflexivity.
  - destruct (Ascii.eqb c "/"); simpl.
    + by rewrite Nat.sub_0_r, substring_all.
    + by rewrite substring_all.
Qed.

Lemma basename_slashless (p : string) : slashless (basename p).
Proof.
  unfold slashless. induction p as [|c p IH]; [done|].
  rewrite basename_cons. pose proof (rfind_slash_ge p).
  destruct (Z.leb_spec 0 (Py.rfind_slash p)) as [Hge|Hlt]; [done|].
  destruct (Ascii.eqb c "/") eqn:Hc; [lia|].
  simpl. destruct (Z.leb_spec 0 (Py.rfind_slash p)); [lia|]. by rewrite Hc.
Qed.

Lemma basename_of_slashless (p : string) : slashless p -> basename p = p.
Proof.
  unfold slashless, basename, Py.slice_from. intros ->. simpl.
  by rewrite Nat.sub_0_r, substring_all.
Qed.

Lemma rfind_slash_app (a b : string) :
  slashless b -> Py.rfind_slash (a +:+ b) = Py.rfind_slash a.
Proof.
  unfold slashless. intros Hb. induction a as [|c a IH]; simpl; [done|].
  by rewrite IH.
Qed.

Lemma slashless_app (a b : string) : slashless a -> slashless b -> slashless (a +:+ b).
Proof. unfold slashless. intros Ha Hb. by rewrite rfind_slash_app. Qed.

Lemma basename_app (a b : string) :
  slashless b -> basename (a +:+ b) = basename a +:+ b.
Proof.
  intros Hb. induction a as [|c a IH].
  - by apply basename_of_slashless.
  - change (String c a +:+ b) with (String c (a +:+ b)).
    rewrite !basename_cons, rfind_slash_app by done.
    destruct (0 <=? Py.rfind_slash a); [done|].
    by destruct (Ascii.eqb c "/").
Qed.

Lemma slashless_no_leading_slash (s : string) : slashless s -> Py.startswith_slash s = false.
Proof.
  unfold slashless. destruct s as [|c s]; simpl; [done|].
  pose proof (rfind_slash_ge s).
  destruct (Z.leb_spec 0 (Py.rfind_slash s)); [lia|].
  destruct (Ascii.eqb c "/"); [lia|done].
Qed.

Lemma endswith_slash_basename (d : string) : Py.endswith_slash d = true -> basename d = "".
Proof.
  induction d as [|c d IH]; simpl; [done|]. intros He.
  rewrite basename_cons. destruct d as [|c' d].
  - simpl. by rewrite He.
  - specialize (IH He). pose proof (basename_of_slashless (String c' d)) as Hs.
    destruct (Z.leb_spec 0 (Py.rfind_slash (String c' d))) as [Hge|Hlt]; [done|].
    pose proof (rfind_slash_ge (String c' d)).
    rewrite Hs in IH by (unfold slashless; lia). discriminate.
Qed.

Lemma endswith_slash_snoc (d : string) : Py.endswith_slash (d +:+ "/") = true.
Proof.
  induction d as [|c d IH]; [done|].
  simpl. destruct (d +:+ "/") eqn:Hd; [by destruct d|exact IH].
Qed.

Lemma string_app_assoc (a b c : string) : (a +:+ b) +:+ c = a +:+ (b +:+ c).
Proof.
  induction a as [|x a IH]; [done|].
  change (String x ((a +:+ b) +:+ c) = String x (a +:+ (b +:+ c))). by rewrite IH.
Qed.

Lemma basename_join (d n : string) : slashless n -> basename (join d n) = n.
Proof.
  intros Hn. unfold join. rewrite (slashless_no_leading_slash n Hn).
  destruct (String.eqb_spec d "") as [->|Hd]; simpl.
  - by apply basename_of_slashless.
  - destruct (Py.endswith_slash d) eqn:He.
    + by rewrite basename_app, (endswith_slash_basename d He).
    + rewrite <- string_app_assoc, basename_app by done.
      by rewrite (endswith_slash_basename _ (endswith_slash_snoc d)).
Qed.

(** X6: the temporary path is [temp/<name>.tmp], where the name is the last
    component of the target path: its directory is [temp], its own last
    component is the name followed by [.tmp], and targets of the same name in
    different directories get the same temporary path. *)
Theorem tmp_path_is_in_temp_under_the_file_name (filepath : string) :
  tmp_path filepath = "temp/" +:+ basename filepath +:+ ".tmp" /\
  dirname (tmp_path filepath) = "temp" /\
  basename (tmp_path filepath) = basename filepath +:+ ".tmp" /\
  (forall d, tmp_path (join d (basename filepath)) = tmp_path filepath).
Proof.
  assert (Hs : slashless (basename filepath +:+ ".tmp")).
  { apply slashless_app; [apply basename_slashless|reflexivity]. }
  assert (Hp : tmp_path filepath = "temp/" +:+ basename filepath +:+ ".tmp").
  { unfold tmp_path, join. by rewrite (slashless_no_leading_slash _ Hs). }
  split; [done|]. split; [|split].
  - rewrite Hp. unfold slashless in Hs.
    set (b := basename filepath +:+ ".tmp") in *.
    change ("temp/" +:+ b)
      with (String "t" (String "e" (String "m" (String "p" (String "/" b))))).
    unfold dirname. simpl Py.rfind_slash. rewrite Hs. clearbody b.
    by destruct b.
  - unfold tmp_path. by apply basename_join.
  - intros d. unfold tmp_path. by rewrite (basename_join d _ (basename_slashless filepath)).
Qed.

(** ** More on the classifier *)

(** X1: with an empty score map the three derived properties raise
    ValueError: [matched_golden_ptn] from [min], [mrd] and [result_type] from
    [max], which is evaluated first. *)
Theorem empty_scores_raise_ValueError (r : Result) :
  diff_indice r = [] ->
  matched_golden_ptn r = Raise (ValueError "min() arg is an empty sequence") /\
  mrd r = Raise (ValueError "max() arg is an empty sequence") /\
  result_type r = Raise (ValueError "max() arg is an empty sequence").
Proof.
  intros Hd. unfold result_type, mrd, matched_golden_ptn. rewrite Hd. done.
Qed.

Lemma empty_scores_raise_ValueError_witness :
  diff_indice (mkResult "A_sample.wav" [] 0) = [] /\
  result_type (mkResult "A_sample.wav" [] 0)
    = Raise (ValueError "max() arg is an empty sequence").
Proof.
  split; [reflexivity|].
  apply (empty_scores_raise_ValueError (mkResult "A_sample.wav" [] 0) eq_refl).
Defined.

(** X2: with a non-empty score map the verdict is one of the three strings
    'TYPICAL', 'TRUE' and 'FALSE', and nothing is raised. *)
Theorem verdict_is_one_of_three (r : Result) :
  diff_indice r <> [] ->
  result_type r = Ok "TYPICAL" \/ result_type r = Ok "TRUE" \/ result_type r = Ok "FALSE".
Proof.
  intros Hne.
  destruct (mrd_spec r Hne) as (hi & lo & Hm & _).
  destruct (matched_ok r Hne) as (k & s & Hg & _).
  rewrite (result_type_cases r _ _ Hm Hg).
  destruct ((hi - lo <? 2000) && (snd (k, s) >? 2000))%bool; [by left|].
  destruct (String.eqb _ _); [right; by left|right; by right].
Qed.

Lemma verdict_is_one_of_three_witness :
  diff_indice (mkResult "A_sample.wav" scores_A_decisive 0) <> [] /\
  (result_type (mkResult "A_sample.wav" scores_A_decisive 0) = Ok "TYPICAL" \/
   result_type (mkResult "A_sample.wav" scores_A_decisive 0) = Ok "TRUE" \/
   result_type (mkResult "A_sample.wav" scores_A_decisive 0) = Ok "FALSE").
Proof.
  split; [discriminate|].
  apply (verdict_is_one_of_three (mkResult "A_sample.wav" scores_A_decisive 0)).
  discriminate.
Defined.

(** X3: the margin is the largest difference between two scores of the map:
    no pair of scores differs by more, and some pair differs by exactly it. *)
Theorem mrd_is_the_largest_difference (r : Result) :
  diff_indice r <> [] ->
  exists m,
    mrd r = Ok m /\
    (forall v1 v2, v1 ∈ values (diff_indice r) -> v2 ∈ values (diff_indice r) ->
                   v1 - v2 <= m) /\
    (exists hi lo, hi ∈ values (diff_indice r) /\ lo ∈ values (diff_indice r) /\
                   m = hi - lo).
Proof.
  intros Hne.
  destruct (values_max _ Hne) as (hi & Hhi & Hhin & Hle).
  destruct (values_min _ Hne) as (lo & Hlo & Hlin & Hge).
  rewrite Forall_forall in Hle. rewrite Forall_forall in Hge.
  exists (hi - lo). split; [|split].
  - unfold mrd. by rewrite Hhi, Hlo.
  - intros v1 v2 H1 H2. specialize (Hle v1 H1). specialize (Hge v2 H2). lia.
  - by exists hi, lo.
Qed.

Lemma mrd_is_the_largest_difference_witness :
  diff_indice (mkResult "X_sample.wav" scores_close 0) <> [] /\
  exists m,
    mrd (mkResult "X_sample.wav" scores_close 0) = Ok m /\
    (forall v1 v2, v1 ∈ values scores_close -> v2 ∈ values scores_close -> v1 - v2 <= m) /\
    (exists hi lo, hi ∈ values scores_close /\ lo ∈ values scores_close /\ m = hi - lo).
Proof.
  split; [discriminate|].
  apply (mrd_is_the_largest_difference (mkResult "X_sample.wav" scores_close 0)).
  discriminate.
Defined.

(** X4: the matched score and the margin do not depend on the insertion
    order of the map; only the matched key may, when scores tie. *)
Theorem score_and_margin_ignore_insertion_order (r r' : Result) :
  diff_indice r ≡ₚ diff_indice r' ->
  diff_indice r <> [] ->
  exists m s k k',
    mrd r = Ok m /\ mrd r' = Ok m /\
    matched_golden_ptn r = Ok (k, s) /\ matched_golden_ptn r' = Ok (k', s).
Proof.
  intros Hp Hne.
  assert (Hne' : diff_indice r' <> []).
  { intros Hnil. rewrite Hnil in Hp. by apply Permutation_nil_r in Hp. }
  assert (Hv : values (diff_indice r) ≡ₚ values (diff_indice r')).
  { unfold values. by rewrite Hp. }
  destruct (values_max _ Hne) as (hi & Hhi & Hhin & Hle).
  destruct (values_min _ Hne) as (lo & Hlo & Hlin & Hge).
  destruct (values_max _ Hne') as (hi' & Hhi' & Hhin' & Hle').
  destruct (values_min _ Hne') as (lo' & Hlo' & Hlin' & Hge').
  destruct (matched_ok r Hne) as (k & s & Hg & _ & Hs).
  destruct (matched_ok r' Hne') as (k' & s' & Hg' & _ & Hs').
  rewrite Forall_forall in Hle, Hge, Hle', Hge'.
  assert (hi = hi').
  { apply Z.le_antisymm; [apply Hle'; by rewrite <- Hv|apply Hle; by rewrite Hv]. }
  assert (lo = lo').
  { apply Z.le_antisymm; [apply Hge; by rewrite Hv|apply Hge'; by rewrite <- Hv]. }
  subst hi' lo'. rewrite Hlo in Hs. rewrite Hlo' in Hs'.
  injection Hs as <-. injection Hs' as <-.
  exists (hi - lo), lo, k, k'.
  unfold mrd. rewrite Hhi, Hlo, Hhi', Hlo'. done.
Qed.

Lemma score_and_margin_ignore_insertion_order_witness :
  exists m s k k',
    mrd (mkResult "C_sample.wav" scores_tied 0) = Ok m /\
    mrd (mkResult "C_sample.wav" (reverse scores_tied) 0) = Ok m /\
    matched_golden_ptn (mkResult "C_sample.wav" scores_tied 0) = Ok (k, s) /\
    matched_golden_ptn (mkResult "C_sample.wav" (reverse scores_tied) 0) = Ok (k', s).
Proof.
  apply (score_and_margin_ignore_insertion_order
           (mkResult "C_sample.wav" scores_tied 0)
           (mkResult "C_sample.wav" (reverse scores_tied) 0)).
  - simpl. symmetry. apply reverse_Permutation.
  - discriminate.
Defined.

(** X5: with a single reference the margin is 0 and that reference is the
    matched one, so that the verdict is 'TYPICAL' as soon as its score is
    above 2000, whatever the file name, and the prefix test is only reached
    for a score of at most 2000. *)
Theorem single_reference_verdict (path k : string) (s t : Z) :
  matched_golden_ptn (mkResult path [(k, s)] t) = Ok (k, s) /\
  mrd (mkResult path [(k, s)] t) = Ok 0 /\
  result_type (mkResult path [(k, s)] t) =
    Ok (if s >? 2000 then "TYPICAL"
        else if String.eqb (Py.slice_to 2 (basename path)) (Py.slice_to 2 k)
             then "TRUE" else "FALSE").
Proof.
  assert (Hm : mrd (mkResult path [(k, s)] t) = Ok 0).
  { unfold mrd. simpl. by rewrite Z.sub_diag. }
  assert (Hg : matched_golden_ptn (mkResult path [(k, s)] t) = Ok (k, s)) by done.
  split; [done|]. split; [done|].
  by rewrite (result_type_cases _ _ _ Hm Hg).
Qed.

(** X7: the file name of a Result is the last component of its path, and
    the verdict depends on the path through that name only: putting the
    target into another directory does not change it. *)
Theorem verdict_ignores_the_directory (d n : string) (scores : dict Z) (t : Z) :
  slashless n ->
  filename (mkResult (join d n) scores t) = n /\
  result_type (mkResult (join d n) scores t) = result_type (mkResult n scores t).
Proof.
  intros Hn.
  assert (Hf : filename (mkResult (join d n) scores t) = filename (mkResult n scores t)).
  { unfold filename. simpl. by rewrite basename_join, basename_of_slashless. }
  split.
  - rewrite Hf. unfold filename. simpl. by apply basename_of_slashless.
  - unfold result_type, prefix_verdict. by rewrite Hf.
Qed.

Lemma verdict_ignores_the_directory_witness :
  slashless "A_sample.wav" /\
  filename (mkResult (join "calls/today" "A_sample.wav") scores_A_decisive 0)
    = "A_sample.wav" /\
  result_type (mkResult (join "calls/today" "A_sample.wav") scores_A_decisive 0)
    = result_type (mkResult "A_sample.wav" scores_A_decisive 0).
Proof.
  split; [reflexivity|].
  apply (verdict_ignores_the_directory "calls/today" "A_sample.wav" scores_A_decisive 0).
  reflexivity.
Defined.

(** ** More on the pattern store *)

Lemma bind_inv {A B} (m : M A) (k : A -> M B) w r w' :
  (m ≫= k) w = Some (r, w') ->
  (exists a w1, m w = Some (Ok a, w1) /\ k a w1 = Some (r, w')) \/
  (exists e, m w = Some (Raise e, w') /\ r = Raise e).
Proof.
  unfold mbind, M_bind. destruct (m w) as [[[a|e] w1]|]; [| |done].
  - intros H. left. by exists a, w1.
  - intros H. injection H as <- <-. right. by exists e.
Qed.

Lemma reads_only_inv {A} (m : M A) w r w' :
  reads_only m -> m w = Some (r, w') -> w' = w.
Proof. intros Hm H. destruct (Hm w) as [r0 H0]. rewrite H0 in H. by injection H. Qed.

Lemma isfile_is_regular p w : isfile p w = Some (Ok (is_regular (files w) p), w).
Proof. reflexivity. Qed.

Lemma open_rb_ok_inv p w data w' :
  open_rb p w = Some (Ok data, w') -> files w !! p = Some (File true data) /\ w' = w.
Proof.
  unfold open_rb. destruct (files w !! p) as [[[] d|acc]|]; intros H; by simplify_eq.
Qed.

Lemma open_wb_inv p data w r w' :
  open_wb p data w = Some (r, w') ->
  (exists e, r = Raise e /\ w' = w) \/
  (r = Ok tt /\ w' = set_files (<[p := File true data]> (files w)) w).
Proof.
  unfold open_wb. destruct (files w !! p) as [[[] d|acc]|].
  - intros H. right. by simplify_eq.
  - intros H. left. eexists. by simplify_eq.
  - intros H. left. eexists. by simplify_eq.
  - destruct (parent_refuses (files w) p); intros H.
    + left. eexists. by simplify_eq.
    + right. by simplify_eq.
Qed.

Lemma dict_set_fresh {V} (d : dict V) k v : k ∉ keys d -> dict_set d k v = d ++ [(k, v)].
Proof.
  unfold keys. induction d as [|[k' v'] d IH]; simpl; intros Hk; [done|].
  apply not_elem_of_cons in Hk as [Hne Hk].
  destruct (String.eqb_spec k k') as [->|_]; [done|]. by rewrite IH.
Qed.

Lemma NoDup_omap_inj {A B} (f : A -> option B) (l : list A) :
  NoDup l ->
  (forall x y z, x ∈ l -> y ∈ l -> f x = Some z -> f y = Some z -> x = y) ->
  NoDup (omap f l).
Proof.
  induction 1 as [|x l Hx Hl IH]; intros Hinj; simpl; [constructor|].
  assert (IH' : NoDup (omap f l)).
  { apply IH. intros a b z Ha Hb. apply Hinj; by apply list_elem_of_further. }
  destruct (f x) as [z|] eqn:Hfx; [|done].
  constructor; [|done].
  intros Hin. apply list_elem_of_omap in Hin as (y & Hy & Hfy).
  apply Hx. rewrite (Hinj x y z); [done|apply list_elem_of_here| |done|done].
  by apply list_elem_of_further.
Qed.

(** The names of a listing are single components, each once. *)
Lemma entries_slashless fs p : Forall slashless (entries fs p).
Proof.
  apply Forall_forall. intros n Hn. unfold entries in Hn.
  apply list_elem_of_omap in Hn as (k & _ & Hk). simpl in Hk.
  destruct (negb (String.eqb (basename k) "") && String.eqb (join p (basename k)) k)%bool;
    [|done].
  injection Hk as <-. apply basename_slashless.
Qed.

Lemma entries_NoDup fs p : NoDup (entries fs p).
Proof.
  unfold entries. apply NoDup_omap_inj; [apply NoDup_fst_map_to_list|].
  intros x y z _ _ Hx Hy. simpl in Hx, Hy.
  destruct (negb (String.eqb (basename x) "") && String.eqb (join p (basename x)) x)%bool
    eqn:Ex; [|done].
  destruct (negb (String.eqb (basename y) "") && String.eqb (join p (basename y)) y)%bool
    eqn:Ey; [|done].
  injection Hx as Hx. injection Hy as Hy.
  apply andb_true_iff in Ex as [_ Ex]. apply andb_true_iff in Ey as [_ Ey].
  apply String.eqb_eq in Ex. apply String.eqb_eq in Ey.
  rewrite <- Ex, <- Ey, Hx, Hy. done.
Qed.

Section StoreMore.

Context `{E : Externals}.

Lemma extract_all_reads_only folderpath names golden_ptns :
  reads_only (extract_all folderpath names golden_ptns).
Proof.
  revert golden_ptns. induction names as [|f names IH]; intros golden_ptns w; simpl.
  - by eexists.
  - rewrite (bind_ok _ _ _ _ _ (isfile_is_regular (join folderpath f) w)).
    destruct (is_regular (files w) (join folderpath f)); [|apply IH].
    destruct (wav_read_reads_only (join folderpath f) w) as [[rs|e] Hr].
    2:{ rewrite (bind_raise _ _ _ _ _ Hr). by eexists. }
    rewrite (bind_ok _ _ _ _ _ Hr).
    destruct (mfcc (snd rs) (fst rs) false) as [ptn|e] eqn:Hm.
    + rewrite (bind_ok _ _ w ptn w); [apply IH|done].
    + rewrite (bind_raise _ _ w e w); [by eexists|done].
Qed.

Lemma extract_all_ok folderpath names golden_ptns w lib w' :
  Forall slashless names -> NoDup names ->
  (forall n, n ∈ names -> n ∉ keys golden_ptns) ->
  extract_all folderpath names golden_ptns w = Some (Ok lib, w') ->
  exists new,
    lib = golden_ptns ++ new /\
    keys new = List.filter (fun f => is_regular (files w) (join folderpath f)) names /\
    Forall (fun kv => pattern_of folderpath w (fst kv) (snd kv)) new.
Proof.
  revert golden_ptns. induction names as [|f names IH]; intros golden_ptns Hs Hnd Hfresh H.
  - simpl in H. injection H as <- _. exists []. by rewrite app_nil_r.
  - apply Forall_cons in Hs as [Hf Hs]. apply NoDup_cons in Hnd as [Hfn Hnd].
    simpl in H. rewrite (bind_ok _ _ _ _ _ (isfile_is_regular (join folderpath f) w)) in H.
    simpl. destruct (is_regular (files w) (join folderpath f)) eqn:Hreg.
    + apply bind_inv_ok in H as (rs & w1 & Hread & H).
      apply bind_inv_ok in Hread as (data & w2 & Hopen & Hdec).
      apply open_rb_ok_inv in Hopen as [Hfile ->].
      unfold lift in Hdec. injection Hdec as Hdec <-.
      apply bind_inv_ok in H as (ptn & w3 & Hm & H).
      unfold lift in Hm. injection Hm as Hm <-.
      rewrite (basename_join folderpath f Hf) in H.
      rewrite dict_set_fresh in H by (apply Hfresh, list_elem_of_here).
      destruct (IH (golden_ptns ++ [(f, ptn)]) Hs Hnd) as (new & -> & Hk & Hp); [|done|].
      { intros n Hn. unfold keys. rewrite fmap_app. intros Hin.
        apply elem_of_app in Hin as [Hin|Hin].
        - by apply (Hfresh n (list_elem_of_further _ _ _ Hn)).
        - apply list_elem_of_singleton in Hin. simpl in Hin. by subst n. }
      exists ((f, ptn) :: new). split; [by rewrite <- app_assoc|]. split.
      * unfold keys in *. rewrite fmap_cons. simpl. by rewrite Hk.
      * constructor; [|done]. by exists data, rs.
    + apply (IH golden_ptns Hs Hnd); [|done].
      intros n Hn. apply Hfresh. by apply list_elem_of_further.
Qed.

(** How the handler that builds the patterns can end. *)
Lemma build_golden_ptns_cases folderpath w r w' :
  build_golden_ptns folderpath w = Some (r, w') ->
  (exists e, r = Raise e /\ w' = w) \/
  (exists lib,
     r = Ok lib /\
     files w !! folderpath = Some (Dir true) /\
     extract_all folderpath (entries (files w) folderpath) [] w = Some (Ok lib, w) /\
     w' = set_files (<[pickle_path := File true (pickle_dumps lib)]> (files w)) w).
Proof.
  unfold build_golden_ptns. intros H.
  apply bind_inv in H as [(names & w1 & Hl & H)|(e & Hl & ->)].
  2:{ left. exists e. split; [done|]. by apply (reads_only_inv _ _ _ _ (os_listdir_reads_only _) Hl). }
  assert (Hd : files w !! folderpath = Some (Dir true) /\
               names = entries (files w) folderpath /\ w1 = w).
  { unfold os_listdir in Hl.
    destruct (files w !! folderpath) as [[acc d|[]]|]; by simplify_eq. }
  destruct Hd as (Hd & -> & ->).
  apply bind_inv in H as [(lib & w2 & Hx & H)|(e & Hx & ->)].
  2:{ left. exists e. split; [done|].
      by apply (reads_only_inv _ _ _ _ (extract_all_reads_only _ _ _) Hx). }
  pose proof (reads_only_inv _ _ _ _ (extract_all_reads_only _ _ _) Hx) as ->.
  apply bind_inv in H as [(u & w3 & Hw & H)|(e & Hw & ->)].
  - apply open_wb_inv in Hw as [(e & He & _)|[_ ->]]; [done|].
    injection H as <- <-. right. by exists lib.
  - apply open_wb_inv in Hw as [(e' & _ & ->)|[He _]]; [|done].
    left. by exists e.
Qed.

Lemma read_golden_ptns_absent fuel folderpath w :
  files w !! pickle_path = None ->
  is_regular (files w) "temp" = false ->
  read_golden_ptns (S fuel) folderpath w = build_golden_ptns folderpath w.
Proof.
  intros Hf Ht. rewrite read_golden_ptns_S.
  unfold mbind at 1, M_bind at 1. rewrite (attempt_absent folderpath w Hf Ht).
  unfold mbind, M_bind.
  by destruct (build_golden_ptns folderpath w) as [[[lib|e] w1]|].
Qed.

Lemma read_golden_ptns_blocked fuel folderpath w :
  files w !! pickle_path = None ->
  is_regular (files w) "temp" = true ->
  read_golden_ptns (S fuel) folderpath w = Some (Raise NotADirectoryError, w).
Proof.
  intros Hf Ht. rewrite read_golden_ptns_S. apply bind_raise.
  by apply attempt_blocked.
Qed.

End StoreMore.

Section StoreExtras.

Context `{E : Externals}.

Lemma open_wb_total p data w : exists r w', open_wb p data w = Some (r, w').
Proof.
  unfold open_wb. destruct (files w !! p) as [[[] d|acc]|]; try by eexists _, _.
  destruct (parent_refuses (files w) p); by eexists _, _.
Qed.

Lemma build_golden_ptns_total folderpath w :
  exists r w', build_golden_ptns folderpath w = Some (r, w').
Proof.
  unfold build_golden_ptns.
  destruct (os_listdir_reads_only folderpath w) as [[names|e] Hl].
  2:{ rewrite (bind_raise _ _ _ _ _ Hl). by eexists _, _. }
  rewrite (bind_ok _ _ _ _ _ Hl).
  destruct (extract_all_reads_only folderpath names [] w) as [[lib|e] Hx].
  2:{ rewrite (bind_raise _ _ _ _ _ Hx). by eexists _, _. }
  rewrite (bind_ok _ _ _ _ _ Hx).
  destruct (open_wb_total pickle_path (pickle_dumps lib) w) as ([u|e] & w1 & Hw).
  - rewrite (bind_ok _ _ _ _ _ Hw). by eexists _, _.
  - rewrite (bind_raise _ _ _ _ _ Hw). by eexists _, _.
Qed.

(** How one pass of the loop can end. *)
Lemma attempt_cases folderpath w r w' :
  attempt folderpath w = Some (r, w') ->
  (w' = w /\ r <> Ok Continue) \/
  (exists line, r = Ok Continue /\ w' = put_line line w) \/
  (exists lib, r = Ok (Built lib) /\
     w' = set_files (<[pickle_path := File true (pickle_dumps lib)]> (files w)) w).
Proof.
  intros H.
  assert (Hbuild :
    (golden_ptns ← build_golden_ptns folderpath; mret (Built golden_ptns)) w = Some (r, w') ->
    (w' = w /\ r <> Ok Continue) \/
    (exists line, r = Ok Continue /\ w' = put_line line w) \/
    (exists lib, r = Ok (Built lib) /\
       w' = set_files (<[pickle_path := File true (pickle_dumps lib)]> (files w)) w)).
  { intros Hb. apply bind_inv in Hb as [(lib & w1 & Hb & Hr)|(e & Hb & ->)].
    - injection Hr as <- <-.
      apply build_golden_ptns_cases in Hb as [(e & He & _)|(lib' & Hl & _ & _ & ->)];
        [done|]. injection Hl as <-. right. right. by exists lib.
    - apply build_golden_ptns_cases in Hb as [(e' & _ & ->)|(lib' & Hl & _)]; [|done].
      left. by split. }
  destruct (files w !! pickle_path) as [[[] data|acc]|] eqn:Hf.
  - destruct (pickle_loads data) as [lib|e] eqn:Hl.
    + rewrite (attempt_loaded folderpath w data lib Hf Hl) in H.
      injection H as <- <-. left. by split.
    + unfold attempt, try_except in H.
      rewrite (attempt_unloadable w data e Hf Hl) in H.
      destruct e; try (injection H as <- <-; left; by split).
      * injection H as <- <-. right. left. by eexists.
      * injection H as <- <-. right. left. by eexists.
      * by apply Hbuild.
  - unfold attempt, try_except in H.
    rewrite (bind_raise _ _ w PermissionError w) in H;
      [|unfold open_rb; by rewrite Hf].
    injection H as <- <-. left. by split.
  - unfold attempt, try_except in H.
    rewrite (bind_raise _ _ w IsADirectoryError w) in H;
      [|unfold open_rb; by rewrite Hf].
    injection H as <- <-. left. by split.
  - destruct (is_regular (files w) "temp") eqn:Ht.
    + rewrite (attempt_blocked folderpath w Hf Ht) in H.
      injection H as <- <-. left. by split.
    + rewrite (attempt_absent folderpath w Hf Ht) in H. by apply Hbuild.
Qed.

(** X8: one pass of the loop changes no path of the disk but the pickle's,
    leaves the clock alone, and prints a line only when it ends in
    [continue]: the reference recordings are never written. *)
Theorem a_pass_writes_the_pickle_only (folderpath : string) (w w' : world) (r : res pass) :
  attempt folderpath w = Some (r, w') ->
  (forall p, p <> pickle_path -> files w' !! p = files w !! p) /\
  clock w' = clock w /\
  (stdout w' = stdout w \/ exists line, stdout w' = stdout w ++ [line] /\ r = Ok Continue).
Proof.
  intros H.
  apply attempt_cases in H as [[-> _]|[(line & -> & ->)|(lib & -> & ->)]].
  - split; [done|]. split; [done|by left].
  - split; [done|]. split; [done|]. right. by exists line.
  - split; [|split; [done|by left]].
    intros p Hp. simpl. by rewrite lookup_insert_ne.
Qed.

(** X9: the library a call builds when there is no pickle mirrors the
    directory: its keys are the names of the listing that are regular files,
    in the order of the listing and each once, every value is the pattern of
    the file of that name, and the only change on the disk is the pickle of
    this library. Subdirectories are passed over. *)
Theorem built_library_mirrors_the_directory
    (fuel : nat) (folderpath : string) (w w' : world) (lib : dict Fingerprint) :
  files w !! pickle_path = None ->
  read_golden_ptns (S fuel) folderpath w = Some (Ok lib, w') ->
  keys lib = List.filter (fun f => is_regular (files w) (join folderpath f))
                         (entries (files w) folderpath) /\
  dict_wf lib /\
  (forall k v, (k, v) ∈ lib -> pattern_of folderpath w k v) /\
  w' = set_files (<[pickle_path := File true (pickle_dumps lib)]> (files w)) w.
Proof.
  intros Hf H. destruct (is_regular (files w) "temp") eqn:Ht.
  { by rewrite (read_golden_ptns_blocked fuel folderpath w Hf Ht) in H. }
  rewrite (read_golden_ptns_absent fuel folderpath w Hf Ht) in H.
  apply build_golden_ptns_cases in H as [(e & He & _)|(lib' & Hl & _ & Hx & ->)]; [done|].
  injection Hl as <-.
  destruct (extract_all_ok folderpath (entries (files w) folderpath) [] w lib w
              (entries_slashless (files w) folderpath) (entries_NoDup (files w) folderpath))
    as (new & -> & Hk & Hp); [|done|].
  { intros n _ Hn. by apply elem_of_nil in Hn. }
  simpl. split; [done|]. split; [|split; [|done]].
  - unfold dict_wf. rewrite Hk. apply NoDup_ListNoDup, List.NoDup_filter, NoDup_ListNoDup.
    apply entries_NoDup.
  - intros k v Hin. rewrite Forall_forall in Hp. by apply (Hp (k, v)).
Qed.

(** X10: the pickle a building call has saved is what the next call loads,
    provided unpickling undoes pickling for this library: the next call
    returns the same library from its [try] block and changes nothing. *)
Theorem built_pickle_is_loaded_by_the_next_call
    (fuel fuel' : nat) (folderpath : string) (w w' : world) (lib : dict Fingerprint) :
  files w !! pickle_path = None ->
  read_golden_ptns (S fuel) folderpath w = Some (Ok lib, w') ->
  pickle_loads (pickle_dumps lib) = Ok lib ->
  attempt folderpath w' = Some (Ok (Loaded lib), w') /\
  read_golden_ptns (S fuel') folderpath w' = Some (Ok lib, w').
Proof.
  intros Hf H Hrt. destruct (is_regular (files w) "temp") eqn:Ht.
  { by rewrite (read_golden_ptns_blocked fuel folderpath w Hf Ht) in H. }
  rewrite (read_golden_ptns_absent fuel folderpath w Hf Ht) in H.
  apply build_golden_ptns_cases in H as [(e & He & _)|(lib' & Hl & _ & _ & ->)]; [done|].
  injection Hl as <-.
  assert (Hp : files (set_files (<[pickle_path := File true (pickle_dumps lib)]> (files w)) w)
                 !! pickle_path = Some (File true (pickle_dumps lib))).
  { simpl. apply lookup_insert_eq. }
  split.
  - by apply (attempt_loaded folderpath _ (pickle_dumps lib)).
  - by apply (read_golden_ptns_loaded fuel' folderpath _ (pickle_dumps lib)).
Qed.

(** X11: a failure of the load for which the [try] has no clause is raised
    to the caller at once and nothing is printed or written: a pickle that
    may not be opened (PermissionError), a directory in its place
    (IsADirectoryError), or any exception of [pickle.load] other than the
    three that are handled. *)
Theorem other_load_failures_are_raised (fuel : nat) (folderpath : string) (w : world) :
  (forall data, files w !! pickle_path = Some (File false data) ->
     read_golden_ptns (S fuel) folderpath w = Some (Raise PermissionError, w)) /\
  (forall acc, files w !! pickle_path = Some (Dir acc) ->
     read_golden_ptns (S fuel) folderpath w = Some (Raise IsADirectoryError, w)) /\
  (forall data e, files w !! pickle_path = Some (File true data) ->
     pickle_loads data = Raise e -> has_clause e = false ->
     read_golden_ptns (S fuel) folderpath w = Some (Raise e, w)).
Proof.
  split; [|split].
  - intros data Hf. rewrite read_golden_ptns_S. apply bind_raise.
    unfold attempt. apply try_except_passed; [|done].
    apply bind_raise. unfold open_rb. by rewrite Hf.
  - intros acc Hf. rewrite read_golden_ptns_S. apply bind_raise.
    unfold attempt. apply try_except_passed; [|done].
    apply bind_raise. unfold open_rb. by rewrite Hf.
  - intros data e Hf Hl He. rewrite read_golden_ptns_S. apply bind_raise.
    unfold attempt. apply try_except_passed; [by apply (attempt_unloadable w data)|].
    by destruct e.
Qed.

(** X12: when there is no pickle the call ends in its first pass, whatever
    the fuel. With a regular file in the place of the temporary directory,
    looking for the pickle raises NotADirectoryError and the directory is not
    even listed. Otherwise the call ends as the handler that builds the
    patterns ends, which never leads to a retry, also when the exception it
    meets is one the [try] has a clause for; and when the call ends by
    raising, it has written and printed nothing. *)
Theorem without_pickle_the_first_pass_decides (fuel : nat) (folderpath : string) (w : world) :
  files w !! pickle_path = None ->
  (is_regular (files w) "temp" = true ->
   read_golden_ptns (S fuel) folderpath w = Some (Raise NotADirectoryError, w)) /\
  (is_regular (files w) "temp" = false ->
   exists r w',
     read_golden_ptns (S fuel) folderpath w = Some (r, w') /\
     build_golden_ptns folderpath w = Some (r, w') /\
     (forall e, r = Raise e -> w' = w)).
Proof.
  intros Hf. split; [by apply read_golden_ptns_blocked|].
  intros Ht. destruct (build_golden_ptns_total folderpath w) as (r & w' & Hb).
  exists r, w'. rewrite (read_golden_ptns_absent fuel folderpath w Hf Ht).
  split; [done|]. split; [done|].
  intros e ->. by apply build_golden_ptns_cases in Hb as [(e' & _ & ->)|(lib & Hl & _)].
Qed.

(** X13: the loop itself never repairs, removes or rebuilds a pickle that
    does not load: when the other processes leave the pickle alone and
    loading it raises EOFError or UnpicklingError, the call is still in its
    loop after any number of passes. *)
Theorem unloadable_pickle_left_alone_is_never_left
    (folderpath : string) (w : world) (data : list byte) :
  (forall w0, files (others w0) !! pickle_path = files w0 !! pickle_path) ->
  files w !! pickle_path = Some (File true data) ->
  (pickle_loads data = Raise EOFError \/
   exists err, pickle_loads data = Raise (UnpicklingError err)) ->
  forall fuel, read_golden_ptns fuel folderpath w = None.
Proof.
  intros Ho Hf Hl fuel. revert w Hf.
  induction fuel as [|fuel IH]; intros w Hf; [done|].
  destruct Hl as [Hl|[err Hl]].
  - rewrite (read_golden_ptns_continue fuel folderpath w warning_empty);
      [|by apply (attempt_empty folderpath w data)].
    apply IH. by rewrite Ho.
  - rewrite (read_golden_ptns_continue fuel folderpath w (warning_unpickling err));
      [|by apply (attempt_corrupt folderpath w data)].
    apply IH. by rewrite Ho.
Qed.

End StoreExtras.

Lemma a_pass_writes_the_pickle_only_witness :
  exists r w',
    @attempt Bench.alone "golden_wav" Bench.fresh = Some (r, w') /\
    (forall p, p <> pickle_path -> files w' !! p = files Bench.fresh !! p) /\
    clock w' = clock Bench.fresh /\
    (stdout w' = stdout Bench.fresh \/
     exists line, stdout w' = stdout Bench.fresh ++ [line] /\ r = Ok (@Continue Bench.alone)).
Proof.
  eexists _, _. split.
  - vm_compute. reflexivity.
  - eapply (@a_pass_writes_the_pickle_only Bench.alone "golden_wav" Bench.fresh).
    vm_compute. reflexivity.
Defined.

Lemma built_library_mirrors_the_directory_witness :
  files Bench.with_subdir !! pickle_path = None /\
  exists lib w',
    @read_golden_ptns Bench.alone 1 "golden_wav" Bench.with_subdir = Some (Ok lib, w') /\
    keys lib = List.filter (fun f => is_regular (files Bench.with_subdir) (join "golden_wav" f))
                           (entries (files Bench.with_subdir) "golden_wav") /\
    dict_wf lib /\
    (forall k v, (k, v) ∈ lib -> @pattern_of Bench.alone "golden_wav" Bench.with_subdir k v) /\
    w' = set_files (<[pickle_path := File true (@pickle_dumps Bench.alone lib)]>
                      (files Bench.with_subdir)) Bench.with_subdir.
Proof.
  split; [reflexivity|]. eexists _, _. split.
  - vm_compute. reflexivity.
  - eapply (@built_library_mirrors_the_directory Bench.alone 0 "golden_wav" Bench.with_subdir).
    + reflexivity.
    + vm_compute. reflexivity.
Defined.

Lemma built_pickle_is_loaded_by_the_next_call_witness :
  files Bench.fresh !! pickle_path = None /\
  @pickle_loads Bench.alone (@pickle_dumps Bench.alone Bench.golden) = Ok Bench.golden /\
  exists w',
    @read_golden_ptns Bench.alone 1 "golden_wav" Bench.fresh = Some (Ok Bench.golden, w') /\
    @attempt Bench.alone "golden_wav" w' = Some (Ok (@Loaded Bench.alone Bench.golden), w') /\
    @read_golden_ptns Bench.alone 1 "golden_wav" w' = Some (Ok Bench.golden, w').
Proof.
  split; [reflexivity|]. split; [reflexivity|]. eexists. split.
  - vm_compute. reflexivity.
  - eapply (@built_pickle_is_loaded_by_the_next_call Bench.alone 0 0 "golden_wav" Bench.fresh).
    + reflexivity.
    + vm_compute. reflexivity.
    + reflexivity.
Defined.

Lemma other_load_failures_are_raised_witness :
  files Bench.locked_blob !! pickle_path = Some (File false (Bench.dumps Bench.golden)) /\
  @read_golden_ptns Bench.alone 1 "golden_wav" Bench.locked_blob
    = Some (Raise PermissionError, Bench.locked_blob).
Proof.
  split; [reflexivity|].
  apply (proj1 (@other_load_failures_are_raised Bench.alone 0 "golden_wav" Bench.locked_blob)
           (Bench.dumps Bench.golden)).
  reflexivity.
Defined.

Lemma without_pickle_the_first_pass_decides_witness :
  (files Bench.temp_is_a_file !! pickle_path = None /\
   is_regular (files Bench.temp_is_a_file) "temp" = true /\
   @read_golden_ptns Bench.alone 1 "golden_wav" Bench.temp_is_a_file
     = Some (Raise NotADirectoryError, Bench.temp_is_a_file)) /\
  (files Bench.bad_ref !! pickle_path = None /\
   is_regular (files Bench.bad_ref) "temp" = false /\
   exists r w',
     @read_golden_ptns Bench.alone 1 "golden_wav" Bench.bad_ref = Some (r, w') /\
     @build_golden_ptns Bench.alone "golden_wav" Bench.bad_ref = Some (r, w') /\
     (forall e, r = Raise e -> w' = Bench.bad_ref)).
Proof.
  split.
  - split; [reflexivity|]. split; [reflexivity|].
    exact (proj1 (@without_pickle_the_first_pass_decides Bench.alone 0 "golden_wav"
                    Bench.temp_is_a_file eq_refl) eq_refl).
  - split; [reflexivity|]. split; [reflexivity|].
    exact (proj2 (@without_pickle_the_first_pass_decides Bench.alone 0 "golden_wav"
                    Bench.bad_ref eq_refl) eq_refl).
Defined.

Lemma unloadable_pickle_left_alone_is_never_left_witness :
  files Bench.torn_blob !! pickle_path = Some (File true (take 5 (Bench.dumps Bench.golden))) /\
  forall fuel, @read_golden_ptns Bench.alone fuel "golden_wav" Bench.torn_blob = None.
Proof.
  split; [reflexivity|].
  apply (@unloadable_pickle_left_alone_is_never_left Bench.alone "golden_wav" Bench.torn_blob
           (take 5 (Bench.dumps Bench.golden))).
  - intros w0. reflexivity.
  - reflexivity.
  - right. exists "pickle data was truncated. ". reflexivity.
Defined.

Example bad_reference_file_raises_and_leaves_no_pickle :
  exists msg,
    @read_golden_ptns Bench.alone 1 "golden_wav" Bench.bad_ref
      = Some (Raise (ValueError msg), Bench.bad_ref).
Proof. eexists. vm_compute. reflexivity. Qed.

(** ** More on the pipeline *)

Lemma bind_none {A B} (m : M A) (k : A -> M B) w : m w = None -> (m ≫= k) w = None.
Proof. intros H. unfold mbind, M_bind. by rewrite H. Qed.

Section PipelineExtras.

Context `{E : Externals}.

Lemma ffmpeg_step_ok filepath tmp_filepath w u w' :
  try_except
    (subprocess_run (ffmpeg_argv filepath tmp_filepath))
    (fun e =>
       match e with
       | FileNotFoundError => Some (_ ← print ffmpeg_required; sys_exit 2)
       | _ => None
       end) w = Some (Ok u, w') ->
  exists run, which "ffmpeg" = Some run /\ w' = run (ffmpeg_argv filepath tmp_filepath) w.
Proof.
  destruct (which "ffmpeg") as [run|] eqn:Hw; intros H.
  - rewrite (try_except_ok _ _ _ _ _ (ffmpeg_found filepath tmp_filepath w run Hw)) in H.
    injection H as _ <-. by exists run.
  - erewrite try_except_caught in H;
      [|by apply ffmpeg_missing|reflexivity]. discriminate H.
Qed.

(** X14: when the golden patterns cannot be obtained the call ends as the
    store ended, in the world the store left: an exception of the store is
    raised unchanged and a store that goes on retrying keeps the call from
    returning; the converter is not run and nothing more is printed. *)
Theorem failure_of_the_store_ends_the_call
    (fuel : nat) (filepath : string) (threshold : option Z) (scan_step : Z)
    (multiproc : bool) (w : world) :
  (forall e w1,
     read_golden_ptns fuel "golden_wav" w = Some (Raise e, w1) ->
     televoice_identify fuel filepath threshold scan_step multiproc w = Some (Raise e, w1)) /\
  (read_golden_ptns fuel "golden_wav" w = None ->
   televoice_identify fuel filepath threshold scan_step multiproc w = None).
Proof.
  split.
  - intros e w1 H. unfold televoice_identify.
    rewrite (bind_ok time_time _ w (clock w) w); [|done]. by apply bind_raise.
  - intros H. unfold televoice_identify.
    rewrite (bind_ok time_time _ w (clock w) w); [|done]. by apply bind_none.
Qed.


Lemma absent_error_tmp_path fs path :
  absent_error fs (tmp_path path) =
    if is_regular fs "temp" then NotADirectoryError else FileNotFoundError.
Proof.
  assert (Hs : Py.rfind_slash (basename path +:+ ".tmp") = -1).
  { apply slashless_app; [apply basename_slashless|reflexivity]. }
  assert (Hp : tmp_path path = "temp/" +:+ basename path +:+ ".tmp").
  { unfold tmp_path, join. by rewrite (slashless_no_leading_slash _ Hs). }
  unfold absent_error.
  rewrite (under_a_file_one_level fs (tmp_path path) "temp"); [done| |done| |done].
  - rewrite Hp. set (b := basename path +:+ ".tmp") in *.
    change ("temp/" +:+ b)
      with (String "t" (String "e" (String "m" (String "p" (String "/" b))))).
    unfold dirname. simpl Py.rfind_slash. rewrite Hs. clearbody b. by destruct b.
  - rewrite Hp. discriminate.
Qed.

(** X16: the exit status of the converter is not looked at: when the
    converter has run and left nothing at the temporary path, the call
    raises the error of reading that path, in the world the converter left:
    FileNotFoundError, or NotADirectoryError when a regular file sits in the
    place of the temporary directory. *)
Theorem missing_converter_output_raises_FileNotFoundError
    (fuel : nat) (path : string) (threshold : option Z) (scan_step : Z)
    (multiproc : bool) (w w1 : world) (golden_ptns : dict Fingerprint)
    (run : list string -> world -> world) :
  read_golden_ptns fuel "golden_wav" w = Some (Ok golden_ptns, w1) ->
  which "ffmpeg" = Some run ->
  files (run (ffmpeg_argv path (tmp_path path)) w1) !! tmp_path path = None ->
  (is_regular (files (run (ffmpeg_argv path (tmp_path path)) w1)) "temp" = false ->
   televoice_identify fuel path threshold scan_step multiproc w =
     Some (Raise FileNotFoundError, run (ffmpeg_argv path (tmp_path path)) w1)) /\
  (is_regular (files (run (ffmpeg_argv path (tmp_path path)) w1)) "temp" = true ->
   televoice_identify fuel path threshold scan_step multiproc w =
     Some (Raise NotADirectoryError, run (ffmpeg_argv path (tmp_path path)) w1)).
Proof.
  intros Hload Hw Hnone.
  assert (H : televoice_identify fuel path threshold scan_step multiproc w =
              Some (Raise (absent_error (files (run (ffmpeg_argv path (tmp_path path)) w1))
                             (tmp_path path)),
                    run (ffmpeg_argv path (tmp_path path)) w1)).
  { unfold televoice_identify.
    rewrite (bind_ok time_time _ w (clock w) w); [|done].
    rewrite (bind_ok _ _ _ _ _ Hload).
    rewrite (bind_ok _ _ w1 tt (run (ffmpeg_argv path (tmp_path path)) w1));
      [|by apply try_except_ok, ffmpeg_found].
    apply bind_raise. unfold wav_read. apply bind_raise.
    unfold open_rb. by rewrite Hnone. }
  rewrite absent_error_tmp_path in H.
  split; intros Ht; by rewrite Ht in H.
Qed.

End PipelineExtras.

Lemma failure_of_the_store_ends_the_call_witness :
  @read_golden_ptns Bench.alone 1 "golden_wav" Bench.no_dir
    = Some (Raise FileNotFoundError, Bench.no_dir) /\
  @televoice_identify Bench.alone 1 "A_sample.wav" None 1 false Bench.no_dir
    = Some (Raise FileNotFoundError, Bench.no_dir).
Proof.
  split; [reflexivity|].
  apply (proj1 (@failure_of_the_store_ends_the_call Bench.alone 1 "A_sample.wav" None 1
                  false Bench.no_dir)).
  reflexivity.
Defined.


Lemma missing_converter_output_raises_FileNotFoundError_witness :
  @read_golden_ptns Bench.alone 1 "golden_wav" Bench.cached
    = Some (Ok Bench.golden, Bench.cached) /\
  files (Bench.transcode (@ffmpeg_argv "missing.wav" (tmp_path "missing.wav")) Bench.cached)
    !! tmp_path "missing.wav" = None /\
  @televoice_identify Bench.alone 1 "missing.wav" None 1 false Bench.cached
    = Some (Raise FileNotFoundError,
            Bench.transcode (@ffmpeg_argv "missing.wav" (tmp_path "missing.wav")) Bench.cached).
Proof.
  split; [reflexivity|]. split; [reflexivity|].
  apply (proj1 (@missing_converter_output_raises_FileNotFoundError Bench.alone 1
                  "missing.wav" None 1 false Bench.cached Bench.cached Bench.golden
                  Bench.transcode eq_refl eq_refl eq_refl)).
  reflexivity.
Defined.

(** X17: a verdict 'TYPICAL' means that no reference fits and none stands
    out: every score of the map is above 2000 and any two scores differ by
    less than 2000. *)
Theorem typical_means_all_scores_large_and_close (r : Result) :
  diff_indice r <> [] ->
  result_type r = Ok "TYPICAL" ->
  (forall v, v ∈ values (diff_indice r) -> 2000 < v) /\
  (forall v1 v2, v1 ∈ values (diff_indice r) -> v2 ∈ values (diff_indice r) ->
                 v1 - v2 < 2000).
Proof.
  intros Hne Ht.
  destruct (values_max _ Hne) as (hi & Hhi & _ & Hle).
  destruct (values_min _ Hne) as (lo & Hlo & _ & Hge).
  destruct (matched_ok r Hne) as (k & s & Hg & _ & Hs).
  rewrite Hlo in Hs. injection Hs as <-.
  assert (Hm : mrd r = Ok (hi - lo)) by (unfold mrd; by rewrite Hhi, Hlo).
  rewrite (result_type_cases r _ _ Hm Hg) in Ht. simpl in Ht.
  rewrite Forall_forall in Hle, Hge.
  destruct (Z.ltb_spec (hi - lo) 2000) as [Hlt|_]; simpl in Ht.
  2:{ destruct (String.eqb _ _); discriminate. }
  unfold Z.gtb in Ht. destruct (Z.compare_spec lo 2000) as [_|_|Hgt]; simpl in Ht;
    try (destruct (String.eqb _ _); discriminate).
  split.
  - intros v Hv. specialize (Hge v Hv). lia.
  - intros v1 v2 H1 H2. specialize (Hle v1 H1). specialize (Hge v2 H2). lia.
Qed.

Lemma typical_means_all_scores_large_and_close_witness :
  (forall v, v ∈ values scores_close -> 2000 < v) /\
  (forall v1 v2, v1 ∈ values scores_close -> v2 ∈ values scores_close -> v1 - v2 < 2000).
Proof.
  apply (typical_means_all_scores_large_and_close (mkResult "X_sample.wav" scores_close 0)).
  - discriminate.
  - reflexivity.
Defined.

Lemma remove_quietly_cases p w u w' :
  try_except (os_remove p) (fun e => if is_OSError e then Some (mret tt) else None) w
    = Some (Ok u, w') ->
  w' = w \/ w' = set_files (delete p (files w)) w.
Proof.
  unfold try_except, os_remove.
  destruct (files w !! p) as [[acc data|acc]|]; simpl.
  - destruct (parent_refuses (files w) p) as [e|] eqn:Hpar.
    + rewrite (parent_refuses_OSError _ _ _ Hpar). intros H. left. by injection H as _ <-.
    + intros H. right. by injection H as _ <-.
  - intros H. left. by injection H as _ <-.
  - rewrite absent_error_OSError. intros H. left. by injection H as _ <-.
Qed.

(** X18: after the converter has run, a call that returns changes nothing
    but the temporary path: the world it leaves is the one the converter
    left, with at most the file at the temporary path removed; it prints
    nothing and touches no other file. *)
Theorem returning_call_only_removes_the_temporary_file
    `{E : Externals} (fuel : nat) (path : string) (threshold : option Z)
    (scan_step : Z) (multiproc : bool) (w w' : world) (r : Result) :
  televoice_identify fuel path threshold scan_step multiproc w = Some (Ok r, w') ->
  exists golden_ptns w1 run,
    read_golden_ptns fuel "golden_wav" w = Some (Ok golden_ptns, w1) /\
    which "ffmpeg" = Some run /\
    (w' = run (ffmpeg_argv path (tmp_path path)) w1 \/
     w' = set_files (delete (tmp_path path)
                       (files (run (ffmpeg_argv path (tmp_path path)) w1)))
            (run (ffmpeg_argv path (tmp_path path)) w1)).
Proof.
  intros H. unfold televoice_identify in H.
  apply bind_inv_ok in H as (start_time & w0 & Ht & H).
  injection Ht as <- <-.
  apply bind_inv_ok in H as (golden_ptns & w1 & Hload & H).
  apply bind_inv_ok in H as (u & w2 & Hff & H).
  apply ffmpeg_step_ok in Hff as (run & Hw & ->).
  apply bind_inv_ok in H as (rs & w3 & Hread & H).
  pose proof (reads_only_inv _ _ _ _ (wav_read_reads_only _) Hread) as ->.
  apply bind_inv_ok in H as (target_mfcc & w4 & Hm & H).
  injection Hm as _ <-.
  apply bind_inv_ok in H as (scores & w5 & Hc & H).
  injection Hc as _ <-.
  apply bind_inv_ok in H as (now & w6 & Hn & H).
  injection Hn as _ <-.
  apply bind_inv_ok in H as (u' & w7 & Hrm & H).
  injection H as _ <-.
  exists golden_ptns, w1, run. split; [done|]. split; [done|].
  by apply remove_quietly_cases in Hrm.
Qed.

Lemma returning_call_only_removes_the_temporary_file_witness :
  exists r w',
    @televoice_identify Bench.alone 1 "A_sample.wav" None 1 false Bench.cached
      = Some (Ok r, w') /\
    exists golden_ptns w1 run,
      @read_golden_ptns Bench.alone 1 "golden_wav" Bench.cached = Some (Ok golden_ptns, w1) /\
      @which Bench.alone "ffmpeg" = Some run /\
      (w' = run (@ffmpeg_argv "A_sample.wav" (tmp_path "A_sample.wav")) w1 \/
       w' = set_files (delete (tmp_path "A_sample.wav")
                         (files (run (@ffmpeg_argv "A_sample.wav" (tmp_path "A_sample.wav")) w1)))
              (run (@ffmpeg_argv "A_sample.wav" (tmp_path "A_sample.wav")) w1)).
Proof.
  eexists _, _. split; [vm_compute; reflexivity|].
  eapply (@returning_call_only_removes_the_temporary_file Bench.alone 1 "A_sample.wav"
            None 1 false Bench.cached).
  vm_compute. reflexivity.
Defined.
